(** * CRXBot: a shallow embedding of [CRXBot.py] and its properties

    The bot polls the ChemRxiv (figshare) listing, skips the preprints whose
    identifier is already in [id_log.txt], tweets the others with their
    thumbnail and appends their identifier to [id_log.txt].

    The script is embedded as it is written: a state-and-exception monad over
    the module's variables and the files it touches, the paginated generator
    as a resumable state machine, and the outside world (figshare, the image
    host, Twitter, the interpreter) as an environment of oracles that see the
    history of the calls made so far. *)

From Stdlib Require Import String Ascii List Arith ZArith Lia Bool DecimalString.
From Stdlib Require Import DecimalPos DecimalZ.
Import ListNotations.
Local Open Scope string_scope.
Local Open Scope nat_scope.

(** ** Python values *)

(** A Python [str] is a [string], one character for each of its characters,
    so that [len] is [String.length]. *)

(** The line feed of ["\n"]. *)
Definition nl : string := String (ascii_of_nat 10) EmptyString.

(** A figshare identifier as it comes out of [r.json()]: a number or a
    string. *)
Inductive json_id : Type :=
| JInt (z : Z)
| JStr (s : string).

(** [str(l['id'])] *)
Definition py_str (v : json_id) : string :=
  match v with
  | JInt z => NilZero.string_of_int (Z.to_int z)
  | JStr s => s
  end.

(** [f'{n}'] for a counter. *)
Definition str_nat (n : nat) : string := NilZero.string_of_uint (Nat.to_uint n).

(** What [prepare_tweet] returns: the text, or the sentinel [False]. *)
Inductive py_value : Type :=
| PyFalse
| PyStr (s : string).

(** [x in id_log], on a Python list of strings. *)
Definition py_in (x : string) (l : list string) : bool :=
  existsb (String.eqb x) l.

(** ** Records of the figshare API *)

(** An entry of the listing: only ['id'] is read. *)
Record summary : Type := { s_id : json_id }.

Record author : Type := { full_name : string }.

(** The full record of [api.preprint(identifier)]. *)
Record preprint : Type := {
  p_id : json_id;
  title : string;
  authors : list author;
  doi : string;
  thumb : string
}.

(** [authorData[-1]] *)
Fixpoint last_item {A : Type} (l : list A) : option A :=
  match l with
  | [] => None
  | [x] => Some x
  | _ :: tl => last_item tl
  end.

(** ** Exceptions, calls and the environment *)

Inductive exn : Type :=
| StopIteration
| HTTPError
| ConnectionError
| TweepError
| IndexError
| FileNotFoundError
| StartupError.

(** The calls that leave the process, and three ghost marks of the main loop
    ([ItemTaken], [CallPrepareTweet], [CallTweetImage]) that record for which
    preprint identifier a function was entered. *)
Inductive event : Type :=
| EvListing (offset : nat)
| EvDetail (identifier : string)
| EvGet (url : string)
| EvUpdateWithMedia (media message : string)
| ItemTaken (preprint_id : string)
| CallPrepareTweet (preprint_id ttl auth url : string)
| CallTweetImage (preprint_id url message : string).

(** [r.json()] of a listing request, or the failure of [raise_for_status]. *)
Inductive listing_response : Type :=
| ListHTTPError
| ListSingle (r : summary)
| ListPage (r : list summary).

Inductive detail_response : Type :=
| DetailHTTPError
| DetailOk (d : preprint).

(** The response of [requests.get(url, stream=True)]. *)
Record response : Type := { status_code : nat; content : string }.

Inductive get_result : Type :=
| GetRaises
| GetResponse (r : response).

(** [twitter_api.update_with_media] returns, or raises [TweepError]. *)
Inductive post_result : Type :=
| PostRaises
| PostOk.

(** The world outside the script. Every oracle is given the calls made so
    far, so that an answer may depend on when it is asked. [e_getsizeof] is
    what [sys.getsizeof] answers for the generator object: its size in
    bytes, whatever the generator would yield. [e_startup] is the outcome of
    the start-up routines (keys, Twitter and figshare authentication), an
    exception when one of them fails. *)
Record env : Type := {
  e_startup : option exn;
  e_twitter_user : string;
  e_getsizeof : nat;
  e_listing : list event -> nat -> listing_response;
  e_detail : list event -> string -> detail_response;
  e_get : list event -> string -> get_result;
  e_update_with_media : list event -> string -> string -> post_result
}.

(** ** The generator of [query_generator] *)

(** [pagesize = 100] *)
Definition pagesize : nat := 100.

(** Where the generator is suspended: not started; inside [yield from r]
    with the items still to yield of the page at offset [n]; after the
    [yield r] of a single item; finished. *)
Inductive generator : Type :=
| GenFresh
| GenPage (n : nat) (rest : list summary)
| GenSingle
| GenDone.

(** [query_generator(query)]: calling the generator function gives a
    generator that has not started. *)
Definition query_generator : generator := GenFresh.

(** [all_preprints()] *)
Definition all_preprints : generator := query_generator.

(** ** The state: module variables, files, and the calls made *)

Record state : Type := mkState {
  doc : generator;
  id_log : list string;
  preprints_added : nat;
  preprints_tweeted : nat;
  preprints_tweeted_FAILED : nat;
  id_log_txt : list string;       (* the lines of id_log.txt *)
  temp_jpg : option string;       (* temp.jpg, when it exists *)
  activity_log : list string;     (* the messages of activity_log.txt *)
  calls : list event
}.

Definition set_doc (g : generator) (st : state) : state :=
  mkState g (id_log st) (preprints_added st) (preprints_tweeted st)
    (preprints_tweeted_FAILED st) (id_log_txt st) (temp_jpg st)
    (activity_log st) (calls st).

Definition set_id_log (l : list string) (st : state) : state :=
  mkState (doc st) l (preprints_added st) (preprints_tweeted st)
    (preprints_tweeted_FAILED st) (id_log_txt st) (temp_jpg st)
    (activity_log st) (calls st).

Definition set_counters (a t f : nat) (st : state) : state :=
  mkState (doc st) (id_log st) a t f (id_log_txt st) (temp_jpg st)
    (activity_log st) (calls st).

Definition set_id_log_txt (l : list string) (st : state) : state :=
  mkState (doc st) (id_log st) (preprints_added st) (preprints_tweeted st)
    (preprints_tweeted_FAILED st) l (temp_jpg st) (activity_log st) (calls st).

Definition set_temp_jpg (f : option string) (st : state) : state :=
  mkState (doc st) (id_log st) (preprints_added st) (preprints_tweeted st)
    (preprints_tweeted_FAILED st) (id_log_txt st) f (activity_log st) (calls st).

Definition set_activity_log (l : list string) (st : state) : state :=
  mkState (doc st) (id_log st) (preprints_added st) (preprints_tweeted st)
    (preprints_tweeted_FAILED st) (id_log_txt st) (temp_jpg st) l (calls st).

Definition record_call (ev : event) (st : state) : state :=
  mkState (doc st) (id_log st) (preprints_added st) (preprints_tweeted st)
    (preprints_tweeted_FAILED st) (id_log_txt st) (temp_jpg st)
    (activity_log st) (calls st ++ [ev]).

(** The files and variables before the script starts. *)
Definition initial_state (log_lines : list string) : state :=
  mkState GenFresh [] 0 0 0 log_lines None [] [].

(** ** The monad: state that survives an exception *)

Inductive result (A : Type) : Type :=
| Ret (a : A)
| Raise (e : exn).
Arguments Ret {A} a.
Arguments Raise {A} e.

Definition M (A : Type) : Type := state -> result A * state.

Definition ret {A : Type} (a : A) : M A := fun st => (Ret a, st).

Definition raise {A : Type} (e : exn) : M A := fun st => (Raise e, st).

Definition bind {A B : Type} (c : M A) (k : A -> M B) : M B :=
  fun st =>
    match c st with
    | (Ret a, st') => k a st'
    | (Raise e, st') => (Raise e, st')
    end.

Definition modify (f : state -> state) : M unit := fun st => (Ret tt, f st).

Definition gets {A : Type} (f : state -> A) : M A := fun st => (Ret (f st), st).

Declare Scope bot_scope.
Delimit Scope bot_scope with bot.
Notation "x <- c ;; k" := (bind c (fun x => k))
  (at level 100, c at next level, right associativity) : bot_scope.
Notation "c ;; k" := (bind c (fun _ => k))
  (at level 100, right associativity) : bot_scope.
Local Open Scope bot_scope.

(** ** The functions of the script *)

(** [write_log(message)]: the message is printed and appended to
    [activity_log.txt]; the time stamp written before it is left out. *)
Definition write_log (message : string) : M unit :=
  modify (fun st => set_activity_log (activity_log st ++ [message]) st).

(** [prepare_tweet(title, author, preprintURL)] *)
Definition prepare_tweet (ttl auth preprintURL : string) : M py_value :=
  let tweetText := (ttl ++ " by " ++ auth ++ " & co-workers") ++ (nl ++ nl) ++ preprintURL in
  if 280 <=? String.length tweetText then
    write_log "Tweet text too long; cannot continue" ;;
    ret PyFalse
  else
    ret (PyStr tweetText).

(** [doiRootURL] *)
Definition doiRootURL : string := "https://doi.org/".

Section Bot.

Variable E : env.

(** [requests.get(url, stream=True)] *)
Definition requests_get (url : string) : M response :=
  fun st =>
    let st' := record_call (EvGet url) st in
    match e_get E (calls st) url with
    | GetRaises => (Raise ConnectionError, st')
    | GetResponse r => (Ret r, st')
    end.

(** [with open(filename, 'wb') as image: for chunk in request: image.write(chunk)] *)
Definition write_temp (body : string) : M unit :=
  modify (set_temp_jpg (Some body)).

(** [twitter_api.update_with_media(filename, status=message)] *)
Definition update_with_media (message : string) : M unit :=
  fun st =>
    match temp_jpg st with
    | None => (Raise TweepError, st)
    | Some media =>
        let st' := record_call (EvUpdateWithMedia media message) st in
        match e_update_with_media E (calls st) media message with
        | PostRaises => (Raise TweepError, st')
        | PostOk => (Ret tt, st')
        end
    end.

(** [os.remove(filename)] *)
Definition os_remove : M unit :=
  fun st =>
    match temp_jpg st with
    | None => (Raise FileNotFoundError, st)
    | Some _ => (Ret tt, set_temp_jpg None st)
    end.

(** [tweet_image(url, message)] *)
Definition tweet_image (url message : string) : M unit :=
  request <- requests_get url ;;
  if status_code request =? 200 then
    write_temp (content request) ;;
    update_with_media message ;;
    os_remove ;;
    write_log ("Tweet successful. " ++ message)
  else
    write_log "Error, couldn't download image.".

(** One request of [query_generator] at offset [n], and what the generator
    does with the answer up to its next [yield], [return] or exception. *)
Definition fetch_page (n : nat) : M summary :=
  fun st =>
    let st' := record_call (EvListing n) st in
    match e_listing E (calls st) n with
    | ListHTTPError => (Raise HTTPError, set_doc GenDone st')
    | ListSingle r => (Ret r, set_doc GenSingle st')
    | ListPage [] => (Raise StopIteration, set_doc GenDone st')
    | ListPage (x :: rest) => (Ret x, set_doc (GenPage n rest) st')
    end.

(** [next(doc)] on the generator of [query_generator]. *)
Definition next_doc : M summary :=
  fun st =>
    match doc st with
    | GenFresh => fetch_page 0 st
    | GenPage n (x :: rest) => (Ret x, set_doc (GenPage n rest) st)
    | GenPage n [] => fetch_page (n + pagesize) st
    | GenSingle => (Raise StopIteration, set_doc GenDone st)
    | GenDone => (Raise StopIteration, st)
    end.

(** [list(generator)] on the generator held in [doc]: [next] until
    [StopIteration]; any other exception goes through. [None] when [fuel]
    calls of [next] did not exhaust the generator. *)
Fixpoint py_list (fuel : nat) : M (option (list summary)) :=
  match fuel with
  | 0 => ret None
  | S k =>
      fun st =>
        match next_doc st with
        | (Ret x, st') =>
            match py_list k st' with
            | (Ret (Some xs), st'') => (Ret (Some (x :: xs)), st'')
            | other => other
            end
        | (Raise StopIteration, st') => (Ret (Some []), st')
        | (Raise e, st') => (Raise e, st')
        end
  end.

(** [query_list]: [list(self.query_generator(...))]. *)
Definition query_list (fuel : nat) : M (option (list summary)) :=
  modify (set_doc query_generator) ;;
  py_list fuel.

(** [api.preprint(identifier)]: [query] with [raise_for_status]. *)
Definition api_preprint (identifier : string) : M preprint :=
  fun st =>
    let st' := record_call (EvDetail identifier) st in
    match e_detail E (calls st) identifier with
    | DetailHTTPError => (Raise HTTPError, st')
    | DetailOk d => (Ret d, st')
    end.

(** [with open('id_log.txt', 'a') as f: f.write(preprint_id + '\n')] *)
Definition append_id_log (preprint_id : string) : M unit :=
  modify (fun st => set_id_log_txt (id_log_txt st ++ [preprint_id]) st).

(** The [else] branch of the loop body: a preprint that is not in [id_log]. *)
Definition process_new (preprint_id : string) : M unit :=
  write_log "New preprint found!" ;;
  current_preprint <- api_preprint preprint_id ;;
  let preprint_title := title current_preprint in
  let authorData := authors current_preprint in
  match last_item authorData with
  | None => raise IndexError
  | Some lastAuthorData =>
      let preprintAuthor := full_name lastAuthorData in
      let preprintURL := doiRootURL ++ doi current_preprint in
      let thumbnailURL := thumb current_preprint in
      modify (record_call (CallPrepareTweet preprint_id preprint_title preprintAuthor preprintURL)) ;;
      tweetText <- prepare_tweet preprint_title preprintAuthor preprintURL ;;
      (* [if tweetText == False: ... else: ...]; a [str] never equals [False] *)
      match tweetText with
      | PyFalse =>
          write_log ("NOTICE: Could not tweet preprint at " ++ preprintURL ++ ", please check manually.") ;;
          modify (fun st => set_counters (preprints_added st) (preprints_tweeted st)
                              (preprints_tweeted_FAILED st + 1) st)
      | PyStr text =>
          write_log ("Submitting " ++ preprint_id ++ " to Twitter...") ;;
          modify (record_call (CallTweetImage preprint_id thumbnailURL text)) ;;
          tweet_image thumbnailURL text ;;
          modify (fun st => set_counters (preprints_added st) (preprints_tweeted st + 1)
                              (preprints_tweeted_FAILED st) st)
      end ;;
      write_log "Committing ID to log..." ;;
      append_id_log preprint_id ;;
      write_log ("Wrote " ++ py_str (p_id current_preprint) ++ " to log") ;;
      modify (fun st => set_counters (preprints_added st + 1) (preprints_tweeted st)
                          (preprints_tweeted_FAILED st) st)
      (* [time.sleep(30)] changes nothing here *)
  end.

(** What the loop does with the summary [l] it took from the generator. *)
Definition process_summary (l : summary) : M unit :=
  let preprint_id := py_str (s_id l) in
  modify (record_call (ItemTaken preprint_id)) ;;
  known <- gets id_log ;;
  if py_in preprint_id known then ret tt else process_new preprint_id.

(** The body of [for i in range(numberPreprints)]. *)
Definition loop_body : M unit :=
  l <- next_doc ;;
  process_summary l.

(** [for i in range(numberPreprints): ...] *)
Fixpoint main_loop (numberPreprints : nat) : M unit :=
  match numberPreprints with
  | 0 => ret tt
  | S k => loop_body ;; main_loop k
  end.

(** The start-up routines: keys, Twitter and figshare authentication. *)
Definition startup : M unit :=
  match e_startup E with
  | Some e => raise e
  | None =>
      write_log "Keys, tokens and secrets successfully loaded..." ;;
      write_log ("Authenticated as Twitter user " ++ e_twitter_user E ++ " successfully.") ;;
      write_log "Authenticated with Figshare."
  end.

(** Reading [id_log.txt] into [id_log], one entry a line, the ['\n']
    stripped. The file is kept as the list of its lines without their
    ['\n'], and is taken to end with one, as every line the script writes
    does. *)
Definition load_id_log : M unit :=
  modify (fun st => set_id_log (id_log_txt st) st) ;;
  write_log "ID Log successfully loaded...".

(** The script from ["BOT STARTS HERE"] to its last line. *)
Definition bot_main : M unit :=
  modify (set_doc all_preprints) ;;
  let numberPreprints := e_getsizeof E in
  write_log ("Retrieved " ++ str_nat numberPreprints ++ " preprints. Beginning search for new content...") ;;
  modify (set_counters 0 0 0) ;;
  main_loop numberPreprints ;;
  a <- gets preprints_added ;;
  t <- gets preprints_tweeted ;;
  f <- gets preprints_tweeted_FAILED ;;
  write_log ("All preprints checked. Processed " ++ str_nat a ++ " new preprints. Tweeted "
             ++ str_nat t ++ ", failed to tweet " ++ str_nat f ++ ".").

(** The whole script. *)
Definition bot : M unit :=
  startup ;;
  load_id_log ;;
  bot_main.

End Bot.

(** ** Concrete worlds, for running the script *)

(** The detail record of preprint 3 in the end-to-end scenario. *)
Definition detail_3 : preprint :=
  {| p_id := JStr "3"; title := "Foo"; authors := [ {| full_name := "Bar" |} ];
     doi := "10.1/abc"; thumb := "https://ndownloader.figshare.com/files/3/preview/thumb.png" |}.

(** A listing of one page with the given identifiers, then nothing. *)
Definition one_page (ids : list string) (offset : nat) : listing_response :=
  if offset =? 0 then ListPage (map (fun i => {| s_id := JStr i |}) ids) else ListPage [].

(** A world where the listing holds [ids], every new preprint has the detail
    record [d] (under its own identifier), the thumbnail download answers
    with [status] and the Twitter call ends as [post]; [size] is what
    [sys.getsizeof(doc)] gives. *)
Definition world (size : nat) (ids : list string) (d : preprint) (status : nat)
    (post : post_result) : env :=
  {| e_startup := None;
     e_twitter_user := "ChemRxivBot";
     e_getsizeof := size;
     e_listing := fun _ offset => one_page ids offset;
     e_detail := fun _ i =>
       DetailOk {| p_id := JStr i; title := title d; authors := authors d;
                   doi := doi d; thumb := thumb d |};
     e_get := fun _ _ => GetResponse {| status_code := status; content := "JFIF" |};
     e_update_with_media := fun _ _ _ => post |}.

(** The end-to-end scenario: summaries 1, 2, 3, a thumbnail that downloads,
    a Twitter call that succeeds. *)
Definition end_to_end (size : nat) : env :=
  world size ["1"; "2"; "3"] detail_3 200 PostOk.

(** A string of [n] letters. *)
Fixpoint letters (n : nat) : string :=
  match n with
  | 0 => EmptyString
  | S k => String "a" (letters k)
  end.

(** A detail record whose tweet is too long. *)
Definition detail_long : preprint :=
  {| p_id := JStr "3"; title := letters 300; authors := [ {| full_name := "Bar" |} ];
     doi := "10.1/abc"; thumb := "https://ndownloader.figshare.com/files/3/preview/thumb.png" |}.

(** A listing of two full pages, then an empty page. *)
Definition two_pages : env :=
  {| e_startup := None;
     e_twitter_user := "ChemRxivBot";
     e_getsizeof := 112;
     e_listing := fun _ offset =>
       if offset =? 0 then ListPage (repeat {| s_id := JInt 1 |} 100)
       else if offset =? 100 then ListPage (repeat {| s_id := JInt 2 |} 100)
       else ListPage [];
     e_detail := fun _ _ => DetailHTTPError;
     e_get := fun _ _ => GetRaises;
     e_update_with_media := fun _ _ _ => PostRaises |}.

(** A listing that answers one record that is not a list. *)
Definition single_item : env :=
  {| e_startup := None;
     e_twitter_user := "ChemRxivBot";
     e_getsizeof := 112;
     e_listing := fun _ _ => ListSingle {| s_id := JInt 7 |};
     e_detail := fun _ _ => DetailHTTPError;
     e_get := fun _ _ => GetRaises;
     e_update_with_media := fun _ _ _ => PostRaises |}.

(** ** What the calls of a run say *)

(** The tweet of the template, as the specification words it. *)
Definition template (ttl auth url : string) : string :=
  ttl ++ " by " ++ auth ++ " & co-workers" ++ nl ++ nl ++ url.

(** The identifiers the loop took from the generator, in order. *)
Fixpoint taken (evs : list event) : list string :=
  match evs with
  | [] => []
  | ItemTaken i :: tl => i :: taken tl
  | _ :: tl => taken tl
  end.

(** The identifiers [prepare_tweet] was called for, in order. *)
Fixpoint prepared (evs : list event) : list string :=
  match evs with
  | [] => []
  | CallPrepareTweet i _ _ _ :: tl => i :: prepared tl
  | _ :: tl => prepared tl
  end.

(** The identifiers [tweet_image] was called for, in order. *)
Fixpoint published (evs : list event) : list string :=
  match evs with
  | [] => []
  | CallTweetImage i _ _ :: tl => i :: published tl
  | _ :: tl => published tl
  end.

(** The identifiers [prepare_tweet] was called for with arguments whose
    text has at most 279 characters, in order. *)
Fixpoint fitting (evs : list event) : list string :=
  match evs with
  | [] => []
  | CallPrepareTweet i ttl auth url :: tl =>
      if String.length (template ttl auth url) <=? 279
      then i :: fitting tl
      else fitting tl
  | _ :: tl => fitting tl
  end.

(** The statuses handed to [update_with_media], in order. *)
Fixpoint posted (evs : list event) : list string :=
  match evs with
  | [] => []
  | EvUpdateWithMedia _ m :: tl => m :: posted tl
  | _ :: tl => posted tl
  end.

(** [preprints_added = preprints_tweeted + preprints_tweeted_FAILED] *)
Definition counters_consistent (st : state) : Prop :=
  preprints_added st = preprints_tweeted st + preprints_tweeted_FAILED st.

Local Open Scope list_scope.

(** ** Vocabulary of the properties *)

(** An identifier that [id_log] does not hold. *)
Definition is_new (l : list string) (i : string) : bool := negb (py_in i l).

(** Neither [prepare_tweet] nor [tweet_image] was called for [x], and the
    in-memory log is [l]. *)
Definition unannounced (l : list string) (x : string) (st : state) : Prop :=
  id_log st = l /\ ~ In x (prepared (calls st)) /\ ~ In x (published (calls st)).

(** [id_log.txt] is the file [f0] followed by the new identifiers among
    those taken from the generator, one line for each time one was taken;
    [prepare_tweet] was called once for each of them, and [tweet_image] once
    for each call of [prepare_tweet] whose text fits. *)
Definition logged_as_taken (l f0 : list string) (st : state) : Prop :=
  id_log st = l
  /\ id_log_txt st = f0 ++ filter (is_new l) (taken (calls st))
  /\ prepared (calls st) = filter (is_new l) (taken (calls st))
  /\ published (calls st) = fitting (calls st).

(** The ways the processing of a new preprint goes once its detail record
    is there. *)
Inductive outcome : Type :=
| TooLong
| DownloadFailed
| Posted
| PostRaised.

(** The calls made so far when [tweet_image] asks for the thumbnail of the
    preprint [preprint_id] with detail record [d] and last author [a], and
    when it hands the tweet to Twitter. *)
Definition calls_at_download (st : state) (preprint_id : string) (d : preprint)
    (a : author) : list event :=
  let preprintURL := (doiRootURL ++ doi d)%string in
  calls st
  ++ [EvDetail preprint_id;
      CallPrepareTweet preprint_id (title d) (full_name a) preprintURL;
      CallTweetImage preprint_id (thumb d) (template (title d) (full_name a) preprintURL)].

Definition calls_at_post (st : state) (preprint_id : string) (d : preprint)
    (a : author) : list event :=
  calls_at_download st preprint_id d a ++ [EvGet (thumb d)].

(** The text and the answers of the world that make the processing go the
    way [o]. *)
Definition answers (E : env) (st : state) (preprint_id : string) (d : preprint)
    (a : author) (o : outcome) : Prop :=
  let tweetText := template (title d) (full_name a) (doiRootURL ++ doi d) in
  let download := e_get E (calls_at_download st preprint_id d a) (thumb d) in
  let post r := e_update_with_media E (calls_at_post st preprint_id d a) (content r) tweetText in
  match o with
  | TooLong => 280 <= String.length tweetText
  | DownloadFailed =>
      String.length tweetText <= 279
      /\ exists r, download = GetResponse r /\ status_code r <> 200
  | Posted =>
      String.length tweetText <= 279
      /\ exists r, download = GetResponse r /\ status_code r = 200 /\ post r = PostOk
  | PostRaised =>
      String.length tweetText <= 279
      /\ exists r, download = GetResponse r /\ status_code r = 200 /\ post r = PostRaises
  end.

(** How one command moved the log file and the counters. *)
Definition effect (st st' : state) (ids : list string) (a t f : nat) : Prop :=
  id_log_txt st' = id_log_txt st ++ ids
  /\ preprints_added st' = preprints_added st + a
  /\ preprints_tweeted st' = preprints_tweeted st + t
  /\ preprints_tweeted_FAILED st' = preprints_tweeted_FAILED st + f.

(** The state in which the main loop starts. *)
Definition loop_entry (E : env) (st : state) : state :=
  snd ((startup E ;;
        load_id_log ;;
        modify (set_doc all_preprints) ;;
        write_log ("Retrieved " ++ str_nat (e_getsizeof E)
                   ++ " preprints. Beginning search for new content...")%string ;;
        modify (set_counters 0 0 0)) st).

(** The last line of the script. *)
Definition closing_message (st : state) : string :=
  ("All preprints checked. Processed " ++ str_nat (preprints_added st)
   ++ " new preprints. Tweeted " ++ str_nat (preprints_tweeted st)
   ++ ", failed to tweet " ++ str_nat (preprints_tweeted_FAILED st) ++ ".")%string.

(** [hoare P c Q]: from a state in [P], the result and the state [c] ends
    with are in [Q], whether [c] returns or raises. *)
Definition hoare {A : Type} (P : state -> Prop) (c : M A)
    (Q : result A -> state -> Prop) : Prop :=
  forall st, P st -> Q (fst (c st)) (snd (c st)).

(** [c] keeps [I], also when it raises. *)
Definition preserves {A : Type} (I : state -> Prop) (c : M A) : Prop :=
  hoare I c (fun _ => I).

(** [c] keeps [I] whenever it returns. *)
Definition preserves_on_return {A : Type} (I : state -> Prop) (c : M A) : Prop :=
  hoare I c (fun r st => match r with Ret _ => I st | Raise _ => True end).

(** Unfolding the commands of the script down to the monad. *)
Ltac unfold_bot :=
  unfold loop_body, process_summary, process_new, tweet_image, prepare_tweet,
    requests_get, update_with_media, os_remove, write_temp, api_preprint,
    append_id_log, write_log, next_doc, fetch_page, bind, modify, gets, ret, raise.

(** One case distinction, on an innermost scrutinee. *)
Ltac split_case :=
  match goal with
  | |- context [match ?x with _ => _ end] =>
      lazymatch x with
      | context [match _ with _ => _ end] => fail
      | _ => destruct x eqn:?
      end
  end.

Ltac split_cases := cbn; repeat (split_case; cbn).

(** ** More readers of the calls, and what every run keeps *)

(** The offsets of the listing requests, in order. *)
Fixpoint listings (evs : list event) : list nat :=
  match evs with
  | [] => []
  | EvListing n :: tl => n :: listings tl
  | _ :: tl => listings tl
  end.

(** The identifiers whose detail record was requested, in order. *)
Fixpoint detailed (evs : list event) : list string :=
  match evs with
  | [] => []
  | EvDetail i :: tl => i :: detailed tl
  | _ :: tl => detailed tl
  end.

(** The first [k] offsets of a paged listing: 0, 100, 200, ... *)
Definition offsets (k : nat) : list nat := map (fun i => i * pagesize) (seq 0 k).

(** The listing requests made so far are the first offsets, and the
    generator is suspended in the page of the last one. *)
Definition paging (st : state) : Prop :=
  exists k, listings (calls st) = offsets k
    /\ match doc st with
       | GenFresh => k = 0
       | GenPage n _ => n + pagesize = k * pagesize
       | _ => True
       end.

(** A status as the script builds it: the template over a DOI link, of at
    most 279 characters. *)
Definition status_ok (m : string) : Prop :=
  String.length m <= 279
  /\ exists ttl auth d, m = template ttl auth (doiRootURL ++ d)%string.

(** What holds of the log file, the counter of new preprints and the calls
    wherever a run stands, and however it ends: the file is [f0] and then one
    line for each preprint counted, each of them for an identifier that
    [prepare_tweet] was called for; [prepare_tweet] is only called for new
    identifiers taken from the generator, [tweet_image] only after
    [prepare_tweet], and nothing is posted outside [tweet_image]. *)
Definition run_sound (l f0 : list string) (st : state) : Prop :=
  id_log st = l
  /\ (exists suffix,
         id_log_txt st = f0 ++ suffix
         /\ length suffix = preprints_added st
         /\ incl suffix (prepared (calls st)))
  /\ incl (prepared (calls st)) (filter (is_new l) (taken (calls st)))
  /\ incl (detailed (calls st)) (filter (is_new l) (taken (calls st)))
  /\ incl (published (calls st)) (prepared (calls st))
  /\ length (posted (calls st)) <= length (published (calls st)).

(** The listing answers the requests made from the calls [h] and the offset
    [n] on with the pages [pages], none of them empty, one after the other,
    and then with [last]. *)
Fixpoint serves (E : env) (h : list event) (n : nat) (pages : list (list summary))
    (last : listing_response) : Prop :=
  match pages with
  | [] => e_listing E h n = last
  | p :: ps =>
      p <> []
      /\ e_listing E h n = ListPage p
      /\ serves E (h ++ [EvListing n]) (n + pagesize) ps last
  end.

(** The [k] offsets from [n] on, [pagesize] apart. *)
Definition offsets_from (n k : nat) : list nat :=
  map (fun i => n + i * pagesize) (seq 0 k).

(** The generator is about to make its request at offset [n]. *)
Definition at_request (st : state) (n : nat) : Prop :=
  (doc st = GenFresh /\ n = 0) \/ (exists m, doc st = GenPage m [] /\ n = m + pagesize).

(** What draining the generator gives, by the answer that follows the
    pages. *)
Definition drained (pages : list (list summary)) (last : listing_response)
    : result (option (list summary)) :=
  match last with
  | ListHTTPError => Raise HTTPError
  | ListSingle r => Ret (Some (concat pages ++ [r]))
  | ListPage _ => Ret (Some (concat pages))
  end.

(** A listing with a page of three, a page of one and then nothing. *)
Definition ragged_pages : env :=
  {| e_startup := None;
     e_twitter_user := "ChemRxivBot";
     e_getsizeof := 112;
     e_listing := fun _ offset =>
       if offset =? 0 then ListPage (map (fun z => {| s_id := JInt z |}) [11; 12; 13]%Z)
       else if offset =? 100 then ListPage [ {| s_id := JInt 14 |} ]
       else ListPage [];
     e_detail := fun _ _ => DetailHTTPError;
     e_get := fun _ _ => GetRaises;
     e_update_with_media := fun _ _ _ => PostRaises |}.

(** A listing that answers one page and then fails. *)
Definition failing_listing : env :=
  {| e_startup := None;
     e_twitter_user := "ChemRxivBot";
     e_getsizeof := 112;
     e_listing := fun _ offset =>
       if offset =? 0 then ListPage (map (fun z => {| s_id := JInt z |}) [11; 12]%Z)
       else ListHTTPError;
     e_detail := fun _ _ => DetailHTTPError;
     e_get := fun _ _ => GetRaises;
     e_update_with_media := fun _ _ _ => PostRaises |}.

(** ** Text files as the script reads and writes them *)

Definition is_nl (c : ascii) : bool := Ascii.eqb c "010".

Definition is_cr (c : ascii) : bool := Ascii.eqb c "013".

(** What a file opened with [open(name, 'r')] hands over: in text mode the
    line ends ["\r\n"] and ["\r"] come out as ["\n"]. *)
Fixpoint universal_newlines (s : string) : string :=
  match s with
  | EmptyString => EmptyString
  | String c rest =>
      if is_cr c then
        match rest with
        | String c' rest' =>
            if is_nl c' then String "010" (universal_newlines rest')
            else String "010" (universal_newlines rest)
        | EmptyString => String "010" EmptyString
        end
      else String c (universal_newlines rest)
  end.

(** The lines of a text, each with its ["\n"]; the last one has none when
    the text does not end with one. *)
Fixpoint text_lines (s : string) : list string :=
  match s with
  | EmptyString => []
  | String c rest =>
      if is_nl c then String c EmptyString :: text_lines rest
      else
        match text_lines rest with
        | [] => [String c EmptyString]
        | line :: lines => String c line :: lines
        end
  end.

(** [list(f)] on a file opened for reading. *)
Definition py_list_file (raw : string) : list string :=
  text_lines (universal_newlines raw).

(** [s.lstrip('\n')] *)
Fixpoint lstrip_nl (s : string) : string :=
  match s with
  | EmptyString => EmptyString
  | String c rest => if is_nl c then lstrip_nl rest else s
  end.

(** [s.rstrip('\n')] *)
Fixpoint rstrip_nl (s : string) : string :=
  match s with
  | EmptyString => EmptyString
  | String c rest =>
      match rstrip_nl rest with
      | EmptyString => if is_nl c then EmptyString else String c EmptyString
      | kept => String c kept
      end
  end.

(** [temp.strip('\n')] *)
Definition strip_nl (s : string) : string := rstrip_nl (lstrip_nl s).

(** Lines 195 to 202: [id_log = list(f)], then every entry stripped of its
    ['\n']. *)
Definition read_id_log (raw : string) : list string :=
  map strip_nl (py_list_file raw).

(** [f.write(preprint_id + '\n')] on the file opened with ['a'], where the
    line end of the platform is ["\n"]. *)
Definition write_id (raw preprint_id : string) : string :=
  raw ++ preprint_id ++ nl.

(** The five secrets of [CRX_keys.txt]. *)
Record keys : Type := {
  twitKey : string;
  twitSecret : string;
  twitToken : string;
  twitToken_secret : string;
  chemRxiv_token : string
}.

(** Lines 162 to 176: the keys file read, stripped and indexed. *)
Definition read_keys (raw : string) : M keys :=
  let CRX_keys := map strip_nl (py_list_file raw) in
  write_log "Keys, tokens and secrets successfully loaded..." ;;
  match CRX_keys with
  | k0 :: k1 :: k2 :: k3 :: k4 :: _ =>
      ret {| twitKey := k0; twitSecret := k1; twitToken := k2;
             twitToken_secret := k3; chemRxiv_token := k4 |}
  | _ => raise IndexError
  end.

(** A string with no line end in it. *)
Fixpoint plain (s : string) : bool :=
  match s with
  | EmptyString => true
  | String c rest => negb (is_nl c) && negb (is_cr c) && plain rest
  end.

(** The text of a file made of the given lines, each ended by ["\n"]. *)
Fixpoint file_of (lines : list string) : string :=
  match lines with
  | [] => EmptyString
  | line :: rest => line ++ nl ++ file_of rest
  end.

(** ** Dictionaries of the figshare client *)

(** A Python [dict] with [str] keys: its items in insertion order, no key
    twice. *)
Definition dict (V : Type) : Type := list (string * V).

(** [d[k]], [None] for [KeyError]. *)
Fixpoint dict_get {V : Type} (k : string) (d : dict V) : option V :=
  match d with
  | [] => None
  | (k0, v0) :: rest => if String.eqb k0 k then Some v0 else dict_get k rest
  end.

(** [d[k] = v]: the value of a key that is there is replaced where it
    stands, a key that is not is added at the end. *)
Fixpoint dict_set {V : Type} (k : string) (v : V) (d : dict V) : dict V :=
  match d with
  | [] => [(k, v)]
  | (k0, v0) :: rest =>
      if String.eqb k0 k then (k0, v) :: rest else (k0, v0) :: dict_set k v rest
  end.

(** [d.update(other)], and [{**other}] from the empty [d]. *)
Definition dict_update {V : Type} (d other : dict V) : dict V :=
  fold_left (fun acc kv => dict_set (fst kv) (snd kv) acc) other d.

(** An entry of [doc['custom_fields']]. *)
Record custom_field (V : Type) : Type := { cf_name : string; cf_value : V }.
Arguments cf_name {V} c.
Arguments cf_value {V} c.

(** [custom_fields_as_dict(doc)]:
    [{i['name']: i['value'] for i in doc['custom_fields']}] *)
Definition custom_fields_as_dict {V : Type} (custom_fields : list (custom_field V))
    : dict V :=
  fold_left (fun acc i => dict_set (cf_name i) (cf_value i) acc) custom_fields [].

(** [search_preprints]: [p = {**criteria, 'institution': 259}] *)
Definition search_preprints_params (criteria : dict json_id) : dict json_id :=
  dict_set "institution" (JInt 259) (dict_update [] criteria).

(** [query_generator]: [params.update({'limit': self.pagesize, 'offset': n})] *)
Definition page_params (params : dict json_id) (n : nat) : dict json_id :=
  dict_update params [("limit", JInt (Z.of_nat pagesize)); ("offset", JInt (Z.of_nat n))].

(** The [params] that [query_generator] hands to its request number [k]
    (from 0): the same dictionary, updated once more before each request,
    with [n] grown by [pagesize] after each page. *)
Fixpoint params_at (params : dict json_id) (k : nat) : dict json_id :=
  match k with
  | 0 => page_params params 0
  | S j => page_params (params_at params j) (S j * pagesize)
  end.

(** What the counters of tweets count: [preprints_tweeted] the calls of
    [tweet_image], [preprints_tweeted_FAILED] the calls of [prepare_tweet]
    whose text did not fit. *)
Definition counted (st : state) : Prop :=
  preprints_tweeted st = length (published (calls st))
  /\ preprints_tweeted_FAILED st + length (fitting (calls st))
     = length (prepared (calls st)).

(** * Properties *)

(** ** Strings *)

Lemma string_app_assoc (a b c : string) : ((a ++ b) ++ c = a ++ b ++ c)%string.
Proof.
  induction a as [|ch a IH]; simpl; [reflexivity | now rewrite IH].
Qed.

Lemma template_eq (ttl auth url : string) :
  ((ttl ++ " by " ++ auth ++ " & co-workers") ++ (nl ++ nl) ++ url)%string
  = template ttl auth url.
Proof.
  unfold template. now rewrite !string_app_assoc.
Qed.

(** ** The message builder *)

(** C6 - [prepare_tweet(title, author, url)] returns the template text
    [title by author & co-workers], a blank line, [url] whenever that text
    has at most 279 characters, and otherwise returns the sentinel [False]
    (a value, not an exception), leaving only a line in the activity log. *)
Theorem prepare_tweet_contract (ttl auth url : string) (st : state) :
  (String.length (template ttl auth url) <= 279 ->
     prepare_tweet ttl auth url st = (Ret (PyStr (template ttl auth url)), st))
  /\ (280 <= String.length (template ttl auth url) ->
        prepare_tweet ttl auth url st
        = (Ret PyFalse,
           set_activity_log (activity_log st ++ ["Tweet text too long; cannot continue"]) st)).
Proof.
  unfold prepare_tweet. rewrite template_eq.
  split; intros H.
  - destruct (Nat.leb_spec 280 (String.length (template ttl auth url))) as [Hge|Hlt].
    + lia.
    + reflexivity.
  - apply Nat.leb_le in H. rewrite H. reflexivity.
Qed.

(** The example of the specification. *)
Example prepare_tweet_example :
  prepare_tweet "T" "A" "https://doi.org/10.1/x" (initial_state [])
  = (Ret (PyStr ("T by A & co-workers" ++ nl ++ nl ++ "https://doi.org/10.1/x")%string),
     initial_state []).
Proof. reflexivity. Qed.

(** The boundary: a text of exactly 279 characters is returned, a text of
    exactly 280 characters is answered by [False]. *)
Lemma prepare_tweet_contract_witness :
  String.length (template (letters 260) EmptyString EmptyString) = 279
  /\ String.length (template (letters 261) EmptyString EmptyString) = 280
  /\ prepare_tweet (letters 260) EmptyString EmptyString (initial_state [])
     = (Ret (PyStr (template (letters 260) EmptyString EmptyString)), initial_state [])
  /\ fst (prepare_tweet (letters 261) EmptyString EmptyString (initial_state [])) = Ret PyFalse.
Proof.
  split; [reflexivity|]. split; [reflexivity|]. split.
  - apply (proj1 (prepare_tweet_contract (letters 260) EmptyString EmptyString (initial_state []))).
    vm_compute. lia.
  - rewrite (proj2 (prepare_tweet_contract (letters 261) EmptyString EmptyString (initial_state []))).
    + reflexivity.
    + vm_compute. lia.
Defined.

(** ** Reasoning about commands *)

#[local] Arguments Nat.leb : simpl never.
#[local] Arguments Nat.eqb : simpl never.
#[local] Arguments String.length : simpl never.
#[local] Arguments append : simpl never.
#[local] Arguments py_in : simpl never.

Lemma hoare_bind {A B : Type} (P : state -> Prop) (c : M A) (k : A -> M B)
    (Q1 : result A -> state -> Prop) (Q : result B -> state -> Prop) :
  hoare P c Q1 ->
  (forall a, hoare (Q1 (Ret a)) (k a) Q) ->
  (forall e st, Q1 (Raise e) st -> Q (Raise e) st) ->
  hoare P (bind c k) Q.
Proof.
  intros Hc Hk He st HP. unfold bind.
  specialize (Hc st HP). destruct (c st) as [[a|e] st1]; simpl in Hc.
  - apply Hk, Hc.
  - simpl. apply He, Hc.
Qed.

Lemma preserves_bind {A B : Type} (I : state -> Prop) (c : M A) (k : A -> M B) :
  preserves I c -> (forall a, preserves I (k a)) -> preserves I (bind c k).
Proof.
  intros Hc Hk. eapply hoare_bind; [exact Hc | exact Hk | auto].
Qed.

Lemma preserves_on_return_bind {A B : Type} (I : state -> Prop) (c : M A) (k : A -> M B) :
  preserves_on_return I c -> (forall a, preserves_on_return I (k a)) ->
  preserves_on_return I (bind c k).
Proof.
  intros Hc Hk. eapply hoare_bind; [exact Hc | exact Hk | auto].
Qed.

Lemma preserves_ret {A : Type} (I : state -> Prop) (a : A) : preserves I (ret a).
Proof. intros st H. exact H. Qed.

Lemma preserves_weaken {A : Type} (I : state -> Prop) (c : M A) :
  preserves I c -> preserves_on_return I c.
Proof.
  intros H st HI. specialize (H st HI). now destruct (fst (c st)).
Qed.

(** ** The lists read off the calls *)

Lemma taken_app (l1 l2 : list event) : taken (l1 ++ l2) = taken l1 ++ taken l2.
Proof.
  induction l1 as [|ev l1 IH]; simpl; [reflexivity|].
  destruct ev; simpl; now rewrite IH.
Qed.

Lemma prepared_app (l1 l2 : list event) :
  prepared (l1 ++ l2) = prepared l1 ++ prepared l2.
Proof.
  induction l1 as [|ev l1 IH]; simpl; [reflexivity|].
  destruct ev; simpl; now rewrite IH.
Qed.

Lemma published_app (l1 l2 : list event) :
  published (l1 ++ l2) = published l1 ++ published l2.
Proof.
  induction l1 as [|ev l1 IH]; simpl; [reflexivity|].
  destruct ev; simpl; now rewrite IH.
Qed.

Lemma posted_app (l1 l2 : list event) : posted (l1 ++ l2) = posted l1 ++ posted l2.
Proof.
  induction l1 as [|ev l1 IH]; simpl; [reflexivity|].
  destruct ev; simpl; now rewrite IH.
Qed.

Lemma fitting_app (l1 l2 : list event) : fitting (l1 ++ l2) = fitting l1 ++ fitting l2.
Proof.
  induction l1 as [|ev l1 IH]; simpl; [reflexivity|].
  destruct ev; simpl; try now rewrite IH.
  destruct (String.length (template ttl auth url) <=? 279); simpl; now rewrite IH.
Qed.

(** Pushing the readers of the calls through the calls a command added. *)
Ltac calls_simpl :=
  repeat rewrite taken_app; repeat rewrite prepared_app;
  repeat rewrite published_app; repeat rewrite fitting_app;
  repeat rewrite filter_app;
  cbn [taken prepared published fitting filter]; rewrite ?app_nil_r.

(** Comparisons computed by the script, as propositions. *)
Ltac leb_props :=
  repeat match goal with
  | H : (_ <=? _) = true |- _ => apply Nat.leb_le in H
  | H : (_ <=? _) = false |- _ => apply Nat.leb_gt in H
  | H : (_ =? _) = true |- _ => apply Nat.eqb_eq in H
  | H : (_ =? _) = false |- _ => apply Nat.eqb_neq in H
  end.

Lemma py_in_In (x : string) (l : list string) : py_in x l = true <-> In x l.
Proof.
  unfold py_in. rewrite existsb_exists. split.
  - intros [y [Hy Heq]]. apply String.eqb_eq in Heq. now subst.
  - intros H. exists x. split; [exact H | apply String.eqb_refl].
Qed.

Lemma py_in_not_In (x : string) (l : list string) : py_in x l = false <-> ~ In x l.
Proof.
  rewrite <- py_in_In. destruct (py_in x l); split; congruence.
Qed.

(** ** The publish step *)

(** What [tweet_image] does when the download does not answer 200. *)
Lemma tweet_image_download_failed (E : env) (url message : string) (st : state)
    (r : response) :
  e_get E (calls st) url = GetResponse r ->
  status_code r <> 200 ->
  tweet_image E url message st
  = (Ret tt,
     set_activity_log (activity_log st ++ ["Error, couldn't download image."])
       (record_call (EvGet url) st)).
Proof.
  intros Hget Hstatus. unfold tweet_image, requests_get, bind. rewrite Hget.
  apply Nat.eqb_neq in Hstatus. rewrite Hstatus. reflexivity.
Qed.

(** What [tweet_image] does when the download answers 200 and the Twitter
    call raises: the exception leaves the function before [os.remove]. *)
Lemma tweet_image_post_raises (E : env) (url message : string) (st : state)
    (r : response) :
  e_get E (calls st) url = GetResponse r ->
  status_code r = 200 ->
  e_update_with_media E (calls st ++ [EvGet url]) (content r) message = PostRaises ->
  tweet_image E url message st
  = (Raise TweepError,
     record_call (EvUpdateWithMedia (content r) message)
       (set_temp_jpg (Some (content r)) (record_call (EvGet url) st))).
Proof.
  intros Hget Hstatus Hpost.
  unfold tweet_image, requests_get, update_with_media, write_temp, bind, modify.
  rewrite Hget. apply Nat.eqb_eq in Hstatus. rewrite Hstatus. cbn.
  rewrite Hpost. reflexivity.
Qed.

(** What [tweet_image] does when the download answers 200 and the Twitter
    call returns. *)
Lemma tweet_image_posted (E : env) (url message : string) (st : state)
    (r : response) :
  e_get E (calls st) url = GetResponse r ->
  status_code r = 200 ->
  e_update_with_media E (calls st ++ [EvGet url]) (content r) message = PostOk ->
  tweet_image E url message st
  = (Ret tt,
     set_activity_log (activity_log st ++ [("Tweet successful. " ++ message)%string])
       (set_temp_jpg None
          (record_call (EvUpdateWithMedia (content r) message)
             (set_temp_jpg (Some (content r)) (record_call (EvGet url) st))))).
Proof.
  intros Hget Hstatus Hpost.
  unfold tweet_image, requests_get, update_with_media, write_temp, os_remove,
    write_log, bind, modify.
  rewrite Hget. apply Nat.eqb_eq in Hstatus. rewrite Hstatus. cbn.
  rewrite Hpost. reflexivity.
Qed.

(** C9 - When the image download answers with a status other than 200,
    [tweet_image] returns without calling [update_with_media]: its only call
    is the download, nothing is posted, [temp.jpg] is not touched, and where
    no [temp.jpg] existed before none exists afterwards. *)
Theorem download_failure_isolation (E : env) (url message : string) (st : state)
    (r : response) :
  e_get E (calls st) url = GetResponse r ->
  status_code r <> 200 ->
  let st' := snd (tweet_image E url message st) in
  fst (tweet_image E url message st) = Ret tt
  /\ calls st' = calls st ++ [EvGet url]
  /\ posted (calls st') = posted (calls st)
  /\ temp_jpg st' = temp_jpg st
  /\ (temp_jpg st = None -> temp_jpg st' = None).
Proof.
  intros Hget Hstatus.
  rewrite (tweet_image_download_failed E url message st r Hget Hstatus). cbn.
  repeat split; auto.
  rewrite posted_app. cbn. apply app_nil_r.
Qed.

Lemma download_failure_isolation_witness :
  let E := world 112 ["3"] detail_3 404 PostOk in
  let st' := snd (tweet_image E (thumb detail_3) "Foo" (initial_state [])) in
  fst (tweet_image E (thumb detail_3) "Foo" (initial_state [])) = Ret tt
  /\ calls st' = [EvGet (thumb detail_3)]
  /\ posted (calls st') = []
  /\ temp_jpg st' = None.
Proof.
  destruct (download_failure_isolation (world 112 ["3"] detail_3 404 PostOk)
              (thumb detail_3) "Foo" (initial_state [])
              {| status_code := 404; content := "JFIF" |})
    as [Hret [Hcalls [Hposted [_ Htemp]]]].
  - reflexivity.
  - simpl. lia.
  - cbv zeta. split; [exact Hret|]. split; [exact Hcalls|].
    split; [exact Hposted|]. apply Htemp. reflexivity.
Defined.

(** C5 - A run of [tweet_image] in which the download answers 200 and
    [update_with_media] raises: the exception leaves the function, and
    [temp.jpg], written by the download, is still there. *)
Theorem temp_file_left_after_post_failure :
  let E := world 112 ["3"] detail_3 200 PostRaises in
  let run := tweet_image E (thumb detail_3) "Foo" (initial_state []) in
  temp_jpg (initial_state []) = None
  /\ fst run = Raise TweepError
  /\ temp_jpg (snd run) = Some "JFIF".
Proof.
  cbv zeta. rewrite (tweet_image_post_raises _ _ _ _ {| status_code := 200; content := "JFIF" |});
    try reflexivity.
  repeat split.
Qed.

(** ** The paginated generator *)

Lemma set_doc_same (st : state) (g : generator) : doc st = g -> set_doc g st = st.
Proof.
  intros <-. now destruct st.
Qed.

(** Inside [yield from r] the generator hands out the rest of the page
    without any request, and then goes on from the exhausted page. *)
Lemma py_list_yield_from (E : env) (rest : list summary) (n fuel : nat) (st : state) :
  doc st = GenPage n rest ->
  py_list E (length rest + fuel) st
  = match py_list E fuel (set_doc (GenPage n []) st) with
    | (Ret (Some xs), st') => (Ret (Some (rest ++ xs)), st')
    | other => other
    end.
Proof.
  revert st. induction rest as [|x rest IH]; intros st Hdoc.
  - simpl. rewrite (set_doc_same st _ Hdoc).
    now destruct (py_list E fuel st) as [[[xs|]|e] st'].
  - simpl. unfold next_doc. rewrite Hdoc.
    rewrite (IH (set_doc (GenPage n rest) st)) by reflexivity.
    change (set_doc (GenPage n []) (set_doc (GenPage n rest) st))
      with (set_doc (GenPage n []) st).
    now destruct (py_list E fuel (set_doc (GenPage n []) st)) as [[[xs|]|e] st'].
Qed.

(** A request answered by an empty page ends the generator. *)
Lemma py_list_empty_page (E : env) (n fuel : nat) (st : state) :
  e_listing E (calls st) n = ListPage [] ->
  (doc st = GenFresh /\ n = 0) \/ (exists m, doc st = GenPage m [] /\ n = m + pagesize) ->
  py_list E (S fuel) st = (Ret (Some []), set_doc GenDone (record_call (EvListing n) st)).
Proof.
  intros Hpage [[Hdoc ->]|[m [Hdoc ->]]];
    simpl; unfold next_doc, fetch_page; rewrite Hdoc, Hpage; reflexivity.
Qed.

(** A request answered by a single item: the item is yielded, and the next
    [next] ends the generator without a further request. *)
Lemma py_list_single (E : env) (n fuel : nat) (st : state) (r : summary) :
  e_listing E (calls st) n = ListSingle r ->
  (doc st = GenFresh /\ n = 0) \/ (exists m, doc st = GenPage m [] /\ n = m + pagesize) ->
  py_list E (S (S fuel)) st = (Ret (Some [r]), set_doc GenDone (record_call (EvListing n) st)).
Proof.
  intros Hone [[Hdoc ->]|[m [Hdoc ->]]];
    simpl; unfold next_doc, fetch_page; rewrite Hdoc, Hone; reflexivity.
Qed.

(** A request answered by a page that is not empty. *)
Lemma py_list_page (E : env) (n fuel : nat) (st : state) (x : summary)
    (rest : list summary) :
  e_listing E (calls st) n = ListPage (x :: rest) ->
  (doc st = GenFresh /\ n = 0) \/ (exists m, doc st = GenPage m [] /\ n = m + pagesize) ->
  py_list E (S (length rest + fuel)) st
  = match py_list E fuel (set_doc (GenPage n []) (record_call (EvListing n) st)) with
    | (Ret (Some xs), st') => (Ret (Some (x :: rest ++ xs)), st')
    | other => other
    end.
Proof.
  intros Hpage Hat.
  assert (Hnext : next_doc E st
                  = (Ret x, set_doc (GenPage n rest) (record_call (EvListing n) st))).
  { destruct Hat as [[Hdoc ->]|[m [Hdoc ->]]];
      unfold next_doc, fetch_page; rewrite Hdoc, Hpage; reflexivity. }
  change (py_list E (S (length rest + fuel)) st)
    with (match next_doc E st with
          | (Ret x, st') =>
              match py_list E (length rest + fuel) st' with
              | (Ret (Some xs), st'') => (Ret (Some (x :: xs)), st'')
              | other => other
              end
          | (Raise StopIteration, st') => (Ret (Some []), st')
          | (Raise e, st') => (Raise e, st')
          end).
  rewrite Hnext.
  rewrite (py_list_yield_from E rest n fuel) by reflexivity.
  change (set_doc (GenPage n []) (set_doc (GenPage n rest) (record_call (EvListing n) st)))
    with (set_doc (GenPage n []) (record_call (EvListing n) st)).
  now destruct (py_list E fuel (set_doc (GenPage n []) (record_call (EvListing n) st)))
    as [[[xs|]|e] st'].
Qed.

(** C7 - Against a listing whose first answer is a full page of 100, whose
    second is another and whose third is an empty page, [query_list] (the
    generator of [query_generator], drained) gives exactly the 200 items,
    with requests at offsets 0, 100 and 200, and the generator is finished;
    and when the first answer is a single record instead of a list, the
    generator yields it and is finished after that one request. *)
Theorem pagination_terminates (E : env) (st : state) :
  (forall (p1 p2 : list summary) (fuel : nat),
      e_listing E (calls st) 0 = ListPage p1 ->
      e_listing E (calls st ++ [EvListing 0]) 100 = ListPage p2 ->
      e_listing E (calls st ++ [EvListing 0; EvListing 100]) 200 = ListPage [] ->
      length p1 = 100 -> length p2 = 100 -> 201 <= fuel ->
      fst (query_list E fuel st) = Ret (Some (p1 ++ p2))
      /\ length (p1 ++ p2) = 200
      /\ calls (snd (query_list E fuel st))
         = calls st ++ [EvListing 0; EvListing 100; EvListing 200]
      /\ doc (snd (query_list E fuel st)) = GenDone)
  /\ (forall (r : summary) (fuel : nat),
        e_listing E (calls st) 0 = ListSingle r -> 2 <= fuel ->
        fst (query_list E fuel st) = Ret (Some [r])
        /\ calls (snd (query_list E fuel st)) = calls st ++ [EvListing 0]
        /\ doc (snd (query_list E fuel st)) = GenDone).
Proof.
  assert (Hstart : forall fuel,
             query_list E fuel st = py_list E fuel (set_doc GenFresh st)) by reflexivity.
  split.
  - intros p1 p2 fuel H0 H100 H200 Hlen1 Hlen2 Hfuel. rewrite Hstart.
    destruct p1 as [|x1 r1]; [discriminate|].
    destruct p2 as [|x2 r2]; [discriminate|].
    simpl in Hlen1, Hlen2.
    change (calls st ++ [EvListing 0; EvListing 100])
      with (calls st ++ [EvListing 0] ++ [EvListing 100]) in H200.
    rewrite app_assoc in H200.
    replace fuel with (S (length r1 + S (length r2 + S (fuel - 201)))) by lia.
    rewrite (py_list_page E 0 _ (set_doc GenFresh st) x1 r1) by (auto; apply H0).
    rewrite (py_list_page E 100 _ _ x2 r2)
      by (try apply H100; right; exists 0; split; reflexivity).
    rewrite (py_list_empty_page E 200)
      by (try apply H200; right; exists 100; split; reflexivity).
    cbn. rewrite app_nil_r. repeat split.
    + rewrite length_app. simpl. lia.
    + now rewrite <- !app_assoc.
  - intros r fuel Hone Hfuel. rewrite Hstart.
    replace fuel with (S (S (fuel - 2))) by lia.
    rewrite (py_list_single E 0 _ (set_doc GenFresh st) r Hone) by auto.
    cbn. repeat split.
Qed.

Lemma pagination_terminates_witness :
  (fst (query_list two_pages 201 (initial_state []))
   = Ret (Some (repeat {| s_id := JInt 1 |} 100 ++ repeat {| s_id := JInt 2 |} 100))
   /\ calls (snd (query_list two_pages 201 (initial_state [])))
      = [EvListing 0; EvListing 100; EvListing 200]
   /\ doc (snd (query_list two_pages 201 (initial_state []))) = GenDone)
  /\ (fst (query_list single_item 2 (initial_state [])) = Ret (Some [ {| s_id := JInt 7 |} ])
      /\ calls (snd (query_list single_item 2 (initial_state []))) = [EvListing 0]
      /\ doc (snd (query_list single_item 2 (initial_state []))) = GenDone).
Proof.
  split.
  - destruct (pagination_terminates two_pages (initial_state [])) as [Hpages _].
    destruct (Hpages (repeat {| s_id := JInt 1 |} 100) (repeat {| s_id := JInt 2 |} 100) 201)
      as [Hitems [_ [Hcalls Hdone]]].
    + reflexivity.
    + reflexivity.
    + reflexivity.
    + apply repeat_length.
    + apply repeat_length.
    + lia.
    + split; [exact Hitems|]. split; [exact Hcalls | exact Hdone].
  - destruct (pagination_terminates single_item (initial_state [])) as [_ Hone].
    apply (Hone {| s_id := JInt 7 |} 2).
    + reflexivity.
    + lia.
Defined.

(** ** The main loop *)

Section Loop.

Variable E : env.

(** An invariant that looks neither at [doc] nor at the listing requests is
    kept by [next(doc)]. *)
Lemma next_doc_preserves (I : state -> Prop) :
  (forall st g, I st -> I (set_doc g st)) ->
  (forall st n, I st -> I (record_call (EvListing n) st)) ->
  preserves I (next_doc E).
Proof.
  intros Hdoc Hcall st HI. unfold next_doc, fetch_page.
  split_cases; auto.
Qed.

Lemma main_loop_preserves (I : state -> Prop) :
  preserves I (loop_body E) -> forall n, preserves I (main_loop E n).
Proof.
  intros Hbody n. induction n as [|n IH]; simpl.
  - apply preserves_ret.
  - apply preserves_bind; [exact Hbody | intros _; exact IH].
Qed.

Lemma main_loop_preserves_on_return (I : state -> Prop) :
  preserves_on_return I (loop_body E) ->
  forall n, preserves_on_return I (main_loop E n).
Proof.
  intros Hbody n. induction n as [|n IH]; simpl.
  - apply preserves_weaken, preserves_ret.
  - apply preserves_on_return_bind; [exact Hbody | intros _; exact IH].
Qed.

(** The first [k] iterations of a longer loop are the loop of [k]
    iterations: what holds after [main_loop k] for every [k] holds after
    every iteration of a run. *)
Lemma main_loop_add (k m : nat) (st : state) :
  main_loop E (k + m) st = bind (main_loop E k) (fun _ => main_loop E m) st.
Proof.
  revert st. induction k as [|k IH]; intros st; simpl.
  - reflexivity.
  - unfold bind in *. destruct (loop_body E st) as [[[]|e] st1].
    + apply IH.
    + reflexivity.
Qed.

(** *** The counters *)

Lemma process_summary_counters (l : summary) :
  preserves counters_consistent (process_summary E l).
Proof.
  intros st H. unfold counters_consistent in *.
  unfold_bot. split_cases. all: lia.
Qed.

Lemma loop_body_counters : preserves counters_consistent (loop_body E).
Proof.
  apply preserves_bind.
  - apply next_doc_preserves; auto.
  - apply process_summary_counters.
Qed.

(** *** The in-memory log *)

Lemma process_summary_id_log (l0 : list string) (l : summary) :
  preserves (fun st => id_log st = l0) (process_summary E l).
Proof.
  intros st H. unfold_bot. split_cases. all: exact H.
Qed.

Lemma loop_body_id_log (l0 : list string) :
  preserves (fun st => id_log st = l0) (loop_body E).
Proof.
  apply preserves_bind.
  - apply next_doc_preserves; auto.
  - apply process_summary_id_log.
Qed.

(** *** Known identifiers are passed over *)

Lemma process_summary_unannounced (l0 : list string) (x : string) (l : summary) :
  In x l0 -> preserves (unannounced l0 x) (process_summary E l).
Proof.
  intros Hx st [Hlog [Hp Hq]]. unfold unannounced.
  unfold_bot. split_cases.
  all: calls_simpl; (split; [exact Hlog|]).
  all: rewrite ?in_app_iff; cbn [In].
  all: try (split; tauto).
  all: assert (Hne : py_str (s_id l) <> x)
         by (intros Heq; rewrite <- Hlog, <- Heq in Hx; apply py_in_In in Hx; congruence).
  all: split; tauto.
Qed.

Lemma loop_body_unannounced (l0 : list string) (x : string) :
  In x l0 -> preserves (unannounced l0 x) (loop_body E).
Proof.
  intros Hx. apply preserves_bind.
  - apply next_doc_preserves; unfold unannounced; cbn; intros st ? H; [exact H|].
    now calls_simpl.
  - intros l. now apply process_summary_unannounced.
Qed.

(** *** New identifiers are logged each time they are taken *)

Lemma process_summary_logged (l0 f0 : list string) (l : summary) :
  preserves_on_return (logged_as_taken l0 f0) (process_summary E l).
Proof.
  intros st [Hlog [Hfile [Hprep Hpub]]]. unfold logged_as_taken.
  unfold_bot. split_cases.
  all: try exact I.
  all: match goal with H : py_in _ (id_log _) = _ |- _ => rewrite Hlog in H end.
  all: calls_simpl; (split; [exact Hlog|]).
  all: unfold is_new at 2 4;
       match goal with H : py_in _ _ = _ |- _ => rewrite H end; cbn [negb].
  all: rewrite ?app_nil_r, ?app_assoc, <- ?Hfile, <- ?Hprep, <- ?Hpub.
  all: split; [reflexivity|]; split; [reflexivity|].
  all: try reflexivity.
  all: rewrite ?template_eq in *; leb_props;
       match goal with
       | |- context [?n <=? 279] => destruct (Nat.leb_spec n 279); try lia
       end.
  all: now rewrite ?app_nil_r.
Qed.

Lemma loop_body_logged (l0 f0 : list string) :
  preserves_on_return (logged_as_taken l0 f0) (loop_body E).
Proof.
  apply preserves_on_return_bind.
  - apply preserves_weaken, next_doc_preserves;
      unfold logged_as_taken; cbn; intros st ? H; [exact H|].
    now calls_simpl.
  - apply process_summary_logged.
Qed.

(** *** The script around the loop *)

Lemma bot_startup_fails (e : exn) (st : state) :
  e_startup E = Some e -> bot E st = (Raise e, st).
Proof.
  intros H. unfold bot, startup, bind, raise. now rewrite H.
Qed.

Lemma bot_run (st : state) :
  e_startup E = None ->
  bot E st
  = match main_loop E (e_getsizeof E) (loop_entry E st) with
    | (Ret _, st') =>
        (Ret tt, set_activity_log (activity_log st' ++ [closing_message st']) st')
    | (Raise e, st') => (Raise e, st')
    end.
Proof.
  intros H. unfold bot, bot_main, loop_entry, startup, load_id_log, write_log,
    bind, modify, gets. rewrite H. cbn.
  now destruct (main_loop E (e_getsizeof E) _) as [[[]|e] st'].
Qed.

Lemma loop_entry_facts (st : state) :
  e_startup E = None ->
  id_log (loop_entry E st) = id_log_txt st
  /\ id_log_txt (loop_entry E st) = id_log_txt st
  /\ calls (loop_entry E st) = calls st
  /\ temp_jpg (loop_entry E st) = temp_jpg st
  /\ preprints_added (loop_entry E st) = 0
  /\ preprints_tweeted (loop_entry E st) = 0
  /\ preprints_tweeted_FAILED (loop_entry E st) = 0.
Proof.
  intros H. unfold loop_entry, startup, load_id_log, write_log, bind, modify.
  rewrite H. cbn. repeat split.
Qed.

End Loop.

(** ** One new preprint *)

Lemma calls_at_download_eq (st : state) (preprint_id : string) (d : preprint)
    (a : author) :
  calls_at_download st preprint_id d a
  = ((calls st ++ [EvDetail preprint_id])
       ++ [CallPrepareTweet preprint_id (title d) (full_name a) (doiRootURL ++ doi d)])
      ++ [CallTweetImage preprint_id (thumb d)
            (template (title d) (full_name a) (doiRootURL ++ doi d))].
Proof.
  unfold calls_at_download. now rewrite <- !app_assoc.
Qed.

Lemma fits_leb (n : nat) : n <= 279 -> (280 <=? n) = false.
Proof.
  intros H. apply Nat.leb_gt. lia.
Qed.

Section NewPreprint.

Variable E : env.
Variables (preprint_id : string) (st : state) (d : preprint) (a : author).

Hypothesis detail_fetched : e_detail E (calls st) preprint_id = DetailOk d.
Hypothesis last_author : last_item (authors d) = Some a.

Let run : result unit * state := process_new E preprint_id st.

(** Running [process_new] up to the test on the length of the text. *)
Ltac run_to_length_test :=
  subst run; unfold_bot; cbn; rewrite detail_fetched; cbn; rewrite last_author;
  cbn; rewrite template_eq.

(** The text is too long: nothing is fetched or posted, the failure is
    counted, the identifier is logged. *)
Lemma process_new_too_long :
  answers E st preprint_id d a TooLong ->
  fst run = Ret tt
  /\ effect st (snd run) [preprint_id] 1 0 1
  /\ posted (calls (snd run)) = posted (calls st)
  /\ published (calls (snd run)) = published (calls st).
Proof.
  unfold answers. intros Hlen. apply Nat.leb_le in Hlen.
  run_to_length_test. rewrite Hlen. cbn.
  unfold effect. cbn. calls_simpl. rewrite !posted_app. cbn. rewrite !app_nil_r.
  repeat split; lia.
Qed.

(** The text fits and the thumbnail does not download: [tweet_image] returns
    all the same, nothing is posted, the identifier is logged. *)
Lemma process_new_download_failed :
  answers E st preprint_id d a DownloadFailed ->
  fst run = Ret tt
  /\ effect st (snd run) [preprint_id] 1 1 0
  /\ posted (calls (snd run)) = posted (calls st)
  /\ temp_jpg (snd run) = temp_jpg st.
Proof.
  unfold answers. intros [Hlen [r [Hget Hstatus]]].
  apply fits_leb in Hlen. apply Nat.eqb_neq in Hstatus.
  rewrite calls_at_download_eq in Hget.
  run_to_length_test. rewrite Hlen. cbn. rewrite Hget. cbn. rewrite Hstatus. cbn.
  unfold effect. cbn. rewrite !posted_app. cbn. rewrite ?app_nil_r.
  repeat split; lia.
Qed.

(** The text fits, the thumbnail downloads and Twitter accepts the tweet. *)
Lemma process_new_posted :
  answers E st preprint_id d a Posted ->
  fst run = Ret tt
  /\ effect st (snd run) [preprint_id] 1 1 0
  /\ posted (calls (snd run))
     = posted (calls st) ++ [template (title d) (full_name a) (doiRootURL ++ doi d)]
  /\ temp_jpg (snd run) = None.
Proof.
  unfold answers, calls_at_post. intros [Hlen [r [Hget [Hstatus Hpost]]]].
  apply fits_leb in Hlen. apply Nat.eqb_eq in Hstatus.
  rewrite calls_at_download_eq in Hget, Hpost.
  run_to_length_test. rewrite Hlen. cbn. rewrite Hget. cbn. rewrite Hstatus. cbn.
  rewrite Hpost. cbn.
  unfold effect. cbn. rewrite !posted_app. cbn. rewrite ?app_nil_r.
  repeat split; lia.
Qed.

(** The text fits, the thumbnail downloads and the Twitter call raises: the
    exception leaves [process_new] at once, before the counters and before
    the line of [id_log.txt]. *)
Lemma process_new_post_raises :
  answers E st preprint_id d a PostRaised ->
  fst run = Raise TweepError
  /\ effect st (snd run) [] 0 0 0
  /\ published (calls (snd run)) = published (calls st) ++ [preprint_id]
  /\ (exists r, temp_jpg (snd run) = Some (content r)).
Proof.
  unfold answers, calls_at_post. intros [Hlen [r [Hget [Hstatus Hpost]]]].
  apply fits_leb in Hlen. apply Nat.eqb_eq in Hstatus.
  rewrite calls_at_download_eq in Hget, Hpost.
  run_to_length_test. rewrite Hlen. cbn. rewrite Hget. cbn. rewrite Hstatus. cbn.
  rewrite Hpost. cbn.
  unfold effect. cbn. calls_simpl. rewrite ?app_nil_r.
  repeat split; try lia. now exists r.
Qed.

End NewPreprint.

(** Whatever the world answers, a new preprint gets its line in [id_log.txt]
    when [process_new] returns, and none when it raises. *)
Lemma process_new_logs_on_return (E : env) (preprint_id : string) (st : state) :
  match fst (process_new E preprint_id st) with
  | Ret _ => id_log_txt (snd (process_new E preprint_id st)) = id_log_txt st ++ [preprint_id]
  | Raise _ => id_log_txt (snd (process_new E preprint_id st)) = id_log_txt st
  end.
Proof.
  unfold_bot. split_cases. all: reflexivity.
Qed.

Lemma count_occ_filter (f : string -> bool) (l : list string) (x : string) :
  f x = true ->
  count_occ string_dec (filter f l) x = count_occ string_dec l x.
Proof.
  intros Hx. induction l as [|y l IH]; simpl; [reflexivity|].
  destruct (string_dec y x) as [->|Hne].
  - rewrite Hx. simpl. destruct (string_dec x x); [now rewrite IH | contradiction].
  - destruct (f y); simpl; [|exact IH].
    destruct (string_dec y x); [contradiction | exact IH].
Qed.

(** ** The run *)

Lemma loop_entry_counters (E : env) (lines : list string) :
  counters_consistent (loop_entry E (initial_state lines)).
Proof.
  unfold counters_consistent, loop_entry, startup, load_id_log, write_log, bind,
    modify, raise.
  destruct (e_startup E); reflexivity.
Qed.

(** C8 - After every iteration of the main loop, and at the end of the run
    however it ends, [preprints_added] is [preprints_tweeted] plus
    [preprints_tweeted_FAILED]. The loop of [k] iterations is the first [k]
    iterations of any longer loop ([main_loop_add]). *)
Theorem counter_consistency (E : env) (lines : list string) :
  (forall k, counters_consistent (snd (main_loop E k (loop_entry E (initial_state lines)))))
  /\ counters_consistent (snd (bot E (initial_state lines))).
Proof.
  assert (Hloop : forall k,
             counters_consistent (snd (main_loop E k (loop_entry E (initial_state lines))))).
  { intros k. apply (main_loop_preserves E _ (loop_body_counters E)).
    apply loop_entry_counters. }
  split; [exact Hloop|].
  destruct (e_startup E) as [e|] eqn:Hstart.
  - rewrite (bot_startup_fails E e _ Hstart). reflexivity.
  - rewrite (bot_run E _ Hstart). specialize (Hloop (e_getsizeof E)).
    now destruct (main_loop E (e_getsizeof E) _) as [[[]|e] st'].
Qed.

(** C2 - For an identifier that is in the log read at the start of the run,
    the run calls neither [prepare_tweet] nor [tweet_image]. *)
Theorem idempotency (E : env) (lines : list string) (x : string) :
  In x lines ->
  ~ In x (prepared (calls (snd (bot E (initial_state lines)))))
  /\ ~ In x (published (calls (snd (bot E (initial_state lines))))).
Proof.
  intros Hx. destruct (e_startup E) as [e|] eqn:Hstart.
  - rewrite (bot_startup_fails E e _ Hstart). cbn. tauto.
  - rewrite (bot_run E _ Hstart).
    destruct (loop_entry_facts E (initial_state lines) Hstart) as [Hlog [_ [Hcalls _]]].
    assert (H : unannounced lines x
                  (snd (main_loop E (e_getsizeof E) (loop_entry E (initial_state lines))))).
    { apply (main_loop_preserves E _ (loop_body_unannounced E lines x Hx)).
      unfold unannounced. rewrite Hlog, Hcalls. cbn. tauto. }
    destruct (main_loop E (e_getsizeof E) _) as [[[]|e] st']; apply H.
Qed.

Lemma idempotency_witness :
  In "1" ["1"; "2"]
  /\ ~ In "1" (prepared (calls (snd (bot (end_to_end 3) (initial_state ["1"; "2"])))))
  /\ ~ In "1" (published (calls (snd (bot (end_to_end 3) (initial_state ["1"; "2"]))))).
Proof.
  split.
  - simpl. auto.
  - apply (idempotency (end_to_end 3) ["1"; "2"] "1"). simpl. auto.
Defined.

(** C10 - The main loop never changes [id_log]; and in a run that reaches
    its last line, an identifier that was not in the log at the start has
    had [prepare_tweet] called, and a line written to [id_log.txt], once for
    each time the loop took it from the generator, and [tweet_image] called
    once for each of those calls of [prepare_tweet] whose text fits. *)
Theorem no_intra_run_deduplication (E : env) (lines : list string) :
  (forall n st, id_log (snd (main_loop E n st)) = id_log st)
  /\ (fst (bot E (initial_state lines)) = Ret tt ->
      forall x, ~ In x lines ->
        let evs := calls (snd (bot E (initial_state lines))) in
        count_occ string_dec (prepared evs) x = count_occ string_dec (taken evs) x
        /\ count_occ string_dec (id_log_txt (snd (bot E (initial_state lines)))) x
           = count_occ string_dec (taken evs) x
        /\ count_occ string_dec (published evs) x = count_occ string_dec (fitting evs) x).
Proof.
  split.
  - intros n st.
    now apply (main_loop_preserves E _ (loop_body_id_log E (id_log st)) n st).
  - destruct (e_startup E) as [e|] eqn:Hstart.
    + rewrite (bot_startup_fails E e _ Hstart). discriminate.
    + rewrite (bot_run E _ Hstart).
      destruct (loop_entry_facts E (initial_state lines) Hstart)
        as [Hlog [Hfile [Hcalls _]]].
      assert (H := main_loop_preserves_on_return E _ (loop_body_logged E lines lines)
                     (e_getsizeof E) (loop_entry E (initial_state lines))).
      destruct (main_loop E (e_getsizeof E) _) as [[[]|e] st']; [|discriminate].
      cbn in *. intros _ x Hx.
      destruct H as [_ [Hfile' [Hprep' Hpub']]].
      { unfold logged_as_taken. rewrite Hlog, Hfile, Hcalls. cbn.
        now rewrite app_nil_r. }
      assert (Hnew : is_new lines x = true).
      { unfold is_new. apply py_in_not_In in Hx. now rewrite Hx. }
      rewrite Hprep', Hfile', Hpub', count_occ_app, (count_occ_filter _ _ _ Hnew).
      split; [reflexivity|]. split; [|reflexivity].
      apply (count_occ_not_In string_dec) in Hx. now rewrite Hx.
Qed.

Lemma no_intra_run_deduplication_witness :
  let run := bot (world 2 ["7"; "7"] detail_3 200 PostOk) (initial_state ["1"; "2"]) in
  fst run = Ret tt
  /\ taken (calls (snd run)) = ["7"; "7"]
  /\ length (posted (calls (snd run))) = 2
  /\ id_log_txt (snd run) = ["1"; "2"; "7"; "7"]
  /\ count_occ string_dec (prepared (calls (snd run))) "7"
     = count_occ string_dec (taken (calls (snd run))) "7"
  /\ count_occ string_dec (id_log_txt (snd run)) "7"
     = count_occ string_dec (taken (calls (snd run))) "7"
  /\ count_occ string_dec (published (calls (snd run))) "7"
     = count_occ string_dec (fitting (calls (snd run))) "7".
Proof.
  cbv zeta. split; [reflexivity|]. split; [reflexivity|].
  split; [reflexivity|]. split; [reflexivity|].
  apply (proj2 (no_intra_run_deduplication
                  (world 2 ["7"; "7"] detail_3 200 PostOk) ["1"; "2"])).
  - reflexivity.
  - simpl. intros [H|[H|[]]]; discriminate.
Defined.

(** ** The end-to-end scenario *)

(** Were the loop to make exactly three iterations, the scenario would end
    as described: one preprint found, one tweeted, none failed, and the log
    holding 1, 2 and 3. *)
Lemma end_to_end_three_iterations :
  let run := bot (end_to_end 3) (initial_state ["1"; "2"]) in
  fst run = Ret tt
  /\ preprints_added (snd run) = 1
  /\ preprints_tweeted (snd run) = 1
  /\ preprints_tweeted_FAILED (snd run) = 0
  /\ id_log_txt (snd run) = ["1"; "2"; "3"].
Proof.
  cbv zeta. repeat split; reflexivity.
Qed.

(** C1 - In the end-to-end scenario (log 1, 2; summaries 1, 2, 3; a
    thumbnail that downloads; a Twitter call that succeeds) the loop runs
    [sys.getsizeof(doc)] times; as soon as that number is above 3, the fourth
    [next(doc)] raises [StopIteration] and the run ends on that exception,
    after preprint 3 was tweeted, counted and logged, and before its last
    line. *)
Theorem end_to_end_stops_on_StopIteration (size : nat) :
  3 < size ->
  let run := bot (end_to_end size) (initial_state ["1"; "2"]) in
  fst run = Raise StopIteration
  /\ preprints_added (snd run) = 1
  /\ preprints_tweeted (snd run) = 1
  /\ preprints_tweeted_FAILED (snd run) = 0
  /\ id_log_txt (snd run) = ["1"; "2"; "3"]
  /\ ~ In (closing_message (snd run)) (activity_log (snd run)).
Proof.
  intros Hsize. destruct size as [|[|[|[|m]]]]; try lia.
  cbv zeta. rewrite bot_run by reflexivity.
  change (e_getsizeof (end_to_end (S (S (S (S m)))))) with (S (S (S (S m)))).
  unfold loop_entry.
  cbn [main_loop]. unfold_bot. cbn.
  repeat split; try reflexivity.
  intros H. repeat (destruct H as [H|H]; [discriminate H|]). exact H.
Qed.

Lemma end_to_end_stops_on_StopIteration_witness :
  3 < 112
  /\ fst (bot (end_to_end 112) (initial_state ["1"; "2"])) = Raise StopIteration
  /\ id_log_txt (snd (bot (end_to_end 112) (initial_state ["1"; "2"]))) = ["1"; "2"; "3"].
Proof.
  assert (H : 3 < 112) by lia.
  split; [exact H|].
  destruct (end_to_end_stops_on_StopIteration 112 H) as [Hr [_ [_ [_ [Hlog _]]]]].
  split; [exact Hr | exact Hlog].
Defined.

(** ** What is logged and counted when publishing fails *)

(** A run in which Twitter refuses the tweet of the new preprint 3:
    [tweet_image] was entered for it, the exception ended the run, and
    [id_log.txt] has no line for it. *)
Lemma append_once_counterexample :
  let run := bot (world 1 ["3"] detail_3 200 PostRaises) (initial_state ["1"; "2"]) in
  ~ In "3" ["1"; "2"]
  /\ In "3" (published (calls (snd run)))
  /\ fst run = Raise TweepError
  /\ count_occ string_dec (id_log_txt (snd run)) "3" <> 1.
Proof.
  cbv zeta. split.
  - simpl. intros [H|[H|[]]]; discriminate.
  - split; [vm_compute; auto|]. split; [reflexivity|].
    vm_compute. discriminate.
Qed.

(** C3 - A new preprint whose processing runs to its end - the text was too
    long, or the thumbnail did not download, or the tweet was posted - has
    its identifier appended to [id_log.txt] exactly once by that processing;
    when the Twitter call raises instead, the exception leaves the loop and
    nothing is appended. *)
Theorem append_once_on_completion (E : env) (preprint_id : string) (st : state)
    (d : preprint) (a : author) (o : outcome) :
  ~ In preprint_id (id_log_txt st) ->
  e_detail E (calls st) preprint_id = DetailOk d ->
  last_item (authors d) = Some a ->
  answers E st preprint_id d a o ->
  let run := process_new E preprint_id st in
  match o with
  | PostRaised =>
      fst run = Raise TweepError
      /\ id_log_txt (snd run) = id_log_txt st
      /\ count_occ string_dec (id_log_txt (snd run)) preprint_id = 0
  | _ =>
      fst run = Ret tt
      /\ id_log_txt (snd run) = id_log_txt st ++ [preprint_id]
      /\ count_occ string_dec (id_log_txt (snd run)) preprint_id = 1
  end.
Proof.
  intros Hnew Hd Ha Ho run.
  assert (Hcount : count_occ string_dec (id_log_txt st ++ [preprint_id]) preprint_id = 1).
  { rewrite count_occ_app. apply (count_occ_not_In string_dec) in Hnew.
    rewrite Hnew. simpl. now destruct (string_dec preprint_id preprint_id). }
  pose proof (process_new_logs_on_return E preprint_id st) as Hlog. fold run in Hlog.
  assert (Hdone : match o with
                  | PostRaised => fst run = Raise TweepError
                  | _ => fst run = Ret tt
                  end).
  { destruct o.
    - apply (process_new_too_long E preprint_id st d a Hd Ha Ho).
    - apply (process_new_download_failed E preprint_id st d a Hd Ha Ho).
    - apply (process_new_posted E preprint_id st d a Hd Ha Ho).
    - apply (process_new_post_raises E preprint_id st d a Hd Ha Ho). }
  destruct o; rewrite Hdone in Hlog; rewrite Hlog;
    (split; [exact Hdone|]); (split; [reflexivity|]); try exact Hcount.
  now apply (count_occ_not_In string_dec).
Qed.

(** The four outcomes on preprint 3, from the log 1, 2. *)
Lemma append_once_on_completion_witness :
  let st := initial_state ["1"; "2"] in
  id_log_txt (snd (process_new (world 1 ["3"] detail_long 200 PostOk) "3" st))
  = ["1"; "2"; "3"]
  /\ id_log_txt (snd (process_new (world 1 ["3"] detail_3 404 PostOk) "3" st))
     = ["1"; "2"; "3"]
  /\ id_log_txt (snd (process_new (world 1 ["3"] detail_3 200 PostOk) "3" st))
     = ["1"; "2"; "3"]
  /\ id_log_txt (snd (process_new (world 1 ["3"] detail_3 200 PostRaises) "3" st))
     = ["1"; "2"].
Proof.
  cbv zeta.
  assert (Hnew : ~ In "3" (id_log_txt (initial_state ["1"; "2"]))).
  { simpl. intros [H|[H|[]]]; discriminate. }
  split; [|split; [|split]].
  - refine (proj1 (proj2 (append_once_on_completion
                            (world 1 ["3"] detail_long 200 PostOk) "3"
                            (initial_state ["1"; "2"]) detail_long
                            {| full_name := "Bar" |} TooLong
                            Hnew eq_refl eq_refl _))).
    unfold answers. vm_compute. lia.
  - refine (proj1 (proj2 (append_once_on_completion
                            (world 1 ["3"] detail_3 404 PostOk) "3"
                            (initial_state ["1"; "2"]) detail_3
                            {| full_name := "Bar" |} DownloadFailed
                            Hnew eq_refl eq_refl _))).
    split; [vm_compute; lia|].
    exists {| status_code := 404; content := "JFIF" |}.
    split; [reflexivity | simpl; lia].
  - refine (proj1 (proj2 (append_once_on_completion
                            (world 1 ["3"] detail_3 200 PostOk) "3"
                            (initial_state ["1"; "2"]) detail_3
                            {| full_name := "Bar" |} Posted
                            Hnew eq_refl eq_refl _))).
    split; [vm_compute; lia|].
    exists {| status_code := 200; content := "JFIF" |}.
    repeat split.
  - refine (proj1 (proj2 (append_once_on_completion
                            (world 1 ["3"] detail_3 200 PostRaises) "3"
                            (initial_state ["1"; "2"]) detail_3
                            {| full_name := "Bar" |} PostRaised
                            Hnew eq_refl eq_refl _))).
    split; [vm_compute; lia|].
    exists {| status_code := 200; content := "JFIF" |}.
    repeat split.
Defined.




(** * More properties of the script *)

(** ** Invariants of a run *)

Lemma listings_app (l1 l2 : list event) :
  listings (l1 ++ l2) = listings l1 ++ listings l2.
Proof.
  induction l1 as [|ev l1 IH]; simpl; [reflexivity|].
  destruct ev; simpl; now rewrite IH.
Qed.

Lemma detailed_app (l1 l2 : list event) :
  detailed (l1 ++ l2) = detailed l1 ++ detailed l2.
Proof.
  induction l1 as [|ev l1 IH]; simpl; [reflexivity|].
  destruct ev; simpl; now rewrite IH.
Qed.

(** Pushing every reader of the calls through the calls a command added. *)
Ltac readers_simpl :=
  repeat rewrite taken_app; repeat rewrite prepared_app;
  repeat rewrite published_app; repeat rewrite fitting_app;
  repeat rewrite posted_app; repeat rewrite listings_app;
  repeat rewrite detailed_app; repeat rewrite filter_app;
  cbn [taken prepared published fitting posted listings detailed filter];
  rewrite ?app_nil_r.

(** A loop invariant with its own conclusion for each exception. *)
Lemma main_loop_hoare (E : env) (I : state -> Prop) (X : exn -> state -> Prop) :
  hoare I (loop_body E)
    (fun r st => match r with Ret _ => I st | Raise e => X e st end) ->
  forall n,
    hoare I (main_loop E n)
      (fun r st => match r with Ret _ => I st | Raise e => X e st end).
Proof.
  intros Hbody n. induction n as [|n IH]; simpl.
  - intros st H. exact H.
  - eapply hoare_bind; [exact Hbody | intros a; exact IH | auto].
Qed.

Lemma incl_snoc {A : Type} (l1 l2 : list A) (x : A) :
  incl l1 l2 -> incl (l1 ++ [x]) (l2 ++ [x]).
Proof.
  intros H. apply incl_app; [now apply incl_appl | apply incl_appr, incl_refl].
Qed.

Lemma process_summary_sound (E : env) (l0 f0 : list string) (l : summary) :
  preserves (run_sound l0 f0) (process_summary E l).
Proof.
  intros st Hsound. red in Hsound.
  destruct Hsound as (Hlog & (suffix & Hfile & Hlen & Hsuf) & Hprep & Hdet & Hpub & Hpost).
  unfold run_sound.
  unfold_bot. split_cases.
  all: match goal with H : py_in _ (id_log _) = _ |- _ => rewrite Hlog in H end.
  all: readers_simpl; (split; [exact Hlog|]).
  all: unfold is_new at 2 4;
       match goal with H : py_in _ _ = _ |- _ => rewrite H end; cbn [negb].
  all: rewrite ?app_nil_r, ?length_app; cbn [length].
  all: split;
    [ first [ exists suffix; split; [exact Hfile|]; split; [exact Hlen|];
              auto using incl_appl
            | exists (suffix ++ [py_str (s_id l)]); rewrite Hfile, length_app, app_assoc;
              split; [reflexivity|]; split; [cbn; lia|]; auto using incl_snoc ] |].
  all: repeat split; auto using incl_appl, incl_snoc; try lia.
Qed.

Lemma loop_body_sound (E : env) (l0 f0 : list string) :
  preserves (run_sound l0 f0) (loop_body E).
Proof.
  apply preserves_bind.
  - apply next_doc_preserves; unfold run_sound; cbn; intros st ? H; [exact H|].
    now readers_simpl.
  - apply process_summary_sound.
Qed.

(** From the state the loop starts in to the end of the script. *)
Lemma bot_invariant (E : env) (lines : list string) (I P : state -> Prop) :
  (forall e, e_startup E = Some e -> P (initial_state lines)) ->
  (e_startup E = None -> I (loop_entry E (initial_state lines))) ->
  preserves I (loop_body E) ->
  (forall st, I st -> P st) ->
  (forall st l, I st -> P (set_activity_log l st)) ->
  P (snd (bot E (initial_state lines))).
Proof.
  intros Hfail Hentry Hbody Hend Hlog.
  destruct (e_startup E) as [e|] eqn:Hstart.
  - rewrite (bot_startup_fails E e _ Hstart). now apply (Hfail e).
  - rewrite (bot_run E _ Hstart).
    pose proof (main_loop_preserves E I Hbody (e_getsizeof E) _ (Hentry eq_refl)) as H.
    destruct (main_loop E (e_getsizeof E) _) as [[[]|e] st']; cbn in *; auto.
Qed.

Lemma run_sound_at_entry (E : env) (lines : list string) :
  e_startup E = None ->
  run_sound lines lines (loop_entry E (initial_state lines)).
Proof.
  intros Hstart.
  destruct (loop_entry_facts E (initial_state lines) Hstart)
    as (Hlog & Hfile & Hcalls & _ & Hadded & _).
  unfold run_sound. rewrite Hlog, Hfile, Hcalls, Hadded. cbn.
  split; [reflexivity|]. split.
  - exists []. rewrite app_nil_r. repeat split. apply incl_refl.
  - repeat split; try apply incl_refl. lia.
Qed.

Lemma filter_new_In (l : list string) (evs : list string) (i : string) :
  In i (filter (is_new l) evs) -> ~ In i l /\ In i evs.
Proof.
  intros H. apply filter_In in H. destruct H as [Hin Hnew].
  split; [|exact Hin]. apply py_in_not_In. unfold is_new in Hnew.
  now destruct (py_in i l).
Qed.

(** X1 - However a run ends, [id_log.txt] is the file it started from
    followed by new lines only: as many as the counter of new preprints
    says, each of them an identifier that was not in the file and that the
    loop took from the generator. *)
Theorem log_only_grows (E : env) (lines : list string) :
  exists suffix,
    id_log_txt (snd (bot E (initial_state lines))) = lines ++ suffix
    /\ length suffix = preprints_added (snd (bot E (initial_state lines)))
    /\ forall i, In i suffix ->
         ~ In i lines /\ In i (taken (calls (snd (bot E (initial_state lines))))).
Proof.
  apply (bot_invariant E lines (run_sound lines lines)
           (fun st => exists suffix,
                id_log_txt st = lines ++ suffix
                /\ length suffix = preprints_added st
                /\ forall i, In i suffix -> ~ In i lines /\ In i (taken (calls st)))).
  - intros e _. exists []. cbn. rewrite app_nil_r. repeat split; contradiction.
  - apply run_sound_at_entry.
  - apply loop_body_sound.
  - intros st (_ & (suffix & Hfile & Hlen & Hsuf) & Hprep & _).
    exists suffix. split; [exact Hfile|]. split; [exact Hlen|].
    intros i H. apply (filter_new_In lines), Hprep, Hsuf, H.
  - intros st l (_ & (suffix & Hfile & Hlen & Hsuf) & Hprep & _).
    exists suffix. cbn. split; [exact Hfile|]. split; [exact Hlen|].
    intros i H. apply (filter_new_In lines), Hprep, Hsuf, H.
Qed.

(** X2 - For an identifier that is in the log read at the start, a run
    never asks figshare for the detail record. *)
Theorem known_preprint_not_fetched (E : env) (lines : list string) (x : string) :
  In x lines ->
  ~ In x (detailed (calls (snd (bot E (initial_state lines))))).
Proof.
  intros Hx.
  apply (bot_invariant E lines (run_sound lines lines)
           (fun st => ~ In x (detailed (calls st)))).
  - intros e _. cbn. tauto.
  - apply run_sound_at_entry.
  - apply loop_body_sound.
  - intros st (_ & _ & _ & Hdet & _) H.
    now destruct (filter_new_In lines _ x (Hdet x H)).
  - intros st l (_ & _ & _ & Hdet & _) H. cbn in H.
    now destruct (filter_new_In lines _ x (Hdet x H)).
Qed.

Lemma known_preprint_not_fetched_witness :
  In "1" ["1"; "2"]
  /\ ~ In "1" (detailed (calls (snd (bot (end_to_end 3) (initial_state ["1"; "2"])))))
  /\ detailed (calls (snd (bot (end_to_end 3) (initial_state ["1"; "2"])))) = ["3"].
Proof.
  split; [simpl; auto|]. split.
  - apply (known_preprint_not_fetched (end_to_end 3) ["1"; "2"] "1"). simpl. auto.
  - reflexivity.
Defined.

Lemma filter_none {A : Type} (f : A -> bool) (l : list A) :
  (forall x, In x l -> f x = false) -> filter f l = [].
Proof.
  induction l as [|y l IH]; intros H; simpl; [reflexivity|].
  rewrite (H y) by (left; reflexivity). apply IH. intros x Hx. apply H. now right.
Qed.

(** A run that takes only identifiers of its log leaves everything as it
    was. *)
Lemma idle_run (E : env) (lines : list string) :
  let st' := snd (bot E (initial_state lines)) in
  incl (taken (calls st')) lines ->
  detailed (calls st') = []
  /\ prepared (calls st') = []
  /\ posted (calls st') = []
  /\ id_log_txt st' = lines
  /\ preprints_added st' = 0
  /\ preprints_tweeted st' = 0
  /\ preprints_tweeted_FAILED st' = 0.
Proof.
  cbv zeta.
  apply (bot_invariant E lines
           (fun st => run_sound lines lines st /\ counters_consistent st)
           (fun st => incl (taken (calls st)) lines ->
              detailed (calls st) = [] /\ prepared (calls st) = []
              /\ posted (calls st) = [] /\ id_log_txt st = lines
              /\ preprints_added st = 0 /\ preprints_tweeted st = 0
              /\ preprints_tweeted_FAILED st = 0)).
  - intros e _ _. cbn. repeat split.
  - intros Hstart. split; [now apply run_sound_at_entry | apply loop_entry_counters].
  - intros st [Hs Hc]. split; [now apply loop_body_sound | now apply loop_body_counters].
  - intros st [(_ & (suffix & Hfile & Hlen & Hsuf) & Hprep & Hdet & Hpub & Hpost) Hc] Hall.
    assert (Hnone : filter (is_new lines) (taken (calls st)) = []).
    { apply filter_none. intros i Hi. unfold is_new.
      apply Hall, py_in_In in Hi. now rewrite Hi. }
    rewrite Hnone in Hprep, Hdet.
    apply incl_l_nil in Hprep. apply incl_l_nil in Hdet.
    rewrite Hprep in Hsuf, Hpub. apply incl_l_nil in Hsuf. apply incl_l_nil in Hpub.
    rewrite Hpub in Hpost. subst suffix. cbn in Hlen, Hpost. rewrite app_nil_r in Hfile.
    unfold counters_consistent in Hc.
    destruct (posted (calls st)); [|cbn in Hpost; lia].
    repeat split; auto; lia.
  - intros st l [(_ & (suffix & Hfile & Hlen & Hsuf) & Hprep & Hdet & Hpub & Hpost) Hc] Hall.
    cbn in *.
    assert (Hnone : filter (is_new lines) (taken (calls st)) = []).
    { apply filter_none. intros i Hi. unfold is_new.
      apply Hall, py_in_In in Hi. now rewrite Hi. }
    rewrite Hnone in Hprep, Hdet.
    apply incl_l_nil in Hprep. apply incl_l_nil in Hdet.
    rewrite Hprep in Hsuf, Hpub. apply incl_l_nil in Hsuf. apply incl_l_nil in Hpub.
    rewrite Hpub in Hpost. subst suffix. cbn in Hlen, Hpost. rewrite app_nil_r in Hfile.
    unfold counters_consistent in Hc.
    destruct (posted (calls st)); [|cbn in Hpost; lia].
    repeat split; auto; lia.
Qed.

(** X3 - A run that takes from the generator only identifiers that are in
    its log does nothing: no detail request, no call of [prepare_tweet],
    nothing posted, the file as it was and the three counters at 0. *)
Theorem nothing_new_nothing_done (E : env) (lines : list string) :
  let st' := snd (bot E (initial_state lines)) in
  incl (taken (calls st')) lines ->
  detailed (calls st') = []
  /\ prepared (calls st') = []
  /\ posted (calls st') = []
  /\ id_log_txt st' = lines
  /\ preprints_added st' = 0
  /\ preprints_tweeted st' = 0
  /\ preprints_tweeted_FAILED st' = 0.
Proof.
  exact (idle_run E lines).
Qed.

Lemma nothing_new_nothing_done_witness :
  let st' := snd (bot (end_to_end 3) (initial_state ["1"; "2"; "3"])) in
  taken (calls st') = ["1"; "2"; "3"]
  /\ posted (calls st') = []
  /\ id_log_txt st' = ["1"; "2"; "3"].
Proof.
  cbv zeta. split; [reflexivity|].
  destruct (nothing_new_nothing_done (end_to_end 3) ["1"; "2"; "3"])
    as (_ & _ & Hposted & Hfile & _).
  - vm_compute. intros a Ha. exact Ha.
  - split; [exact Hposted | exact Hfile].
Defined.




(** ** How far a run goes *)

Lemma next_doc_taken (E : env) (st : state) :
  taken (calls (snd (next_doc E st))) = taken (calls st).
Proof.
  unfold next_doc, fetch_page. split_cases; readers_simpl; reflexivity.
Qed.

Lemma process_summary_taken (E : env) (l : summary) (st : state) :
  taken (calls (snd (process_summary E l st))) = taken (calls st) ++ [py_str (s_id l)].
Proof.
  unfold_bot. split_cases; readers_simpl; reflexivity.
Qed.

Lemma loop_body_taken (E : env) (st : state) :
  match fst (loop_body E st) with
  | Ret _ =>
      length (taken (calls (snd (loop_body E st)))) = S (length (taken (calls st)))
  | Raise _ =>
      length (taken (calls (snd (loop_body E st)))) <= S (length (taken (calls st)))
  end.
Proof.
  unfold loop_body, bind.
  pose proof (next_doc_taken E st) as Hnext.
  destruct (next_doc E st) as [[l|e] st1]; cbn [fst snd] in *.
  - pose proof (process_summary_taken E l st1) as Hitem.
    rewrite Hnext in Hitem.
    destruct (process_summary E l st1) as [[[]|e] st2]; cbn [fst snd] in *;
      rewrite Hitem, length_app; cbn; lia.
  - rewrite Hnext. lia.
Qed.

Lemma main_loop_taken (E : env) (n : nat) (st : state) :
  match fst (main_loop E n st) with
  | Ret _ => length (taken (calls (snd (main_loop E n st)))) = length (taken (calls st)) + n
  | Raise _ => length (taken (calls (snd (main_loop E n st)))) <= length (taken (calls st)) + n
  end.
Proof.
  revert st. induction n as [|n IH]; intros st; simpl.
  - cbn. lia.
  - unfold bind. pose proof (loop_body_taken E st) as Hbody.
    destruct (loop_body E st) as [[[]|e] st1]; cbn [fst snd] in *.
    + specialize (IH st1). destruct (main_loop E n st1) as [[[]|e] st2]; cbn [fst snd] in *; lia.
    + lia.
Qed.

(** X5 - A run takes at most [sys.getsizeof(doc)] summaries from the
    generator, however many the listing holds, and exactly that many when it
    reaches its last line. *)
Theorem run_takes_at_most_getsizeof (E : env) (lines : list string) :
  length (taken (calls (snd (bot E (initial_state lines))))) <= e_getsizeof E
  /\ (fst (bot E (initial_state lines)) = Ret tt ->
      length (taken (calls (snd (bot E (initial_state lines))))) = e_getsizeof E).
Proof.
  destruct (e_startup E) as [e|] eqn:Hstart.
  - rewrite (bot_startup_fails E e _ Hstart). cbn. split; [lia | discriminate].
  - rewrite (bot_run E _ Hstart).
    destruct (loop_entry_facts E (initial_state lines) Hstart) as (_ & _ & Hcalls & _).
    pose proof (main_loop_taken E (e_getsizeof E) (loop_entry E (initial_state lines))) as H.
    rewrite Hcalls in H.
    destruct (main_loop E (e_getsizeof E) _) as [[[]|e] st']; cbn in *.
    + split; [lia | intros _; lia].
    + split; [lia | discriminate].
Qed.

Lemma run_takes_at_most_getsizeof_witness :
  let run := bot (world 2 ["5"; "6"; "7"; "8"] detail_3 200 PostOk) (initial_state []) in
  fst run = Ret tt
  /\ taken (calls (snd run)) = ["5"; "6"]
  /\ length (taken (calls (snd run))) = 2.
Proof.
  cbv zeta. split; [reflexivity|]. split; [reflexivity|].
  apply (proj2 (run_takes_at_most_getsizeof
                  (world 2 ["5"; "6"; "7"; "8"] detail_3 200 PostOk) [])).
  reflexivity.
Defined.

(** ** What goes to Twitter *)

Lemma process_summary_status_ok (E : env) (l : summary) :
  preserves (fun st => Forall status_ok (posted (calls st))) (process_summary E l).
Proof.
  intros st H. unfold_bot. split_cases.
  all: readers_simpl; try exact H.
  all: apply Forall_app; split; [exact H|].
  all: constructor; [|constructor].
  all: rewrite template_eq in *; leb_props.
  all: split; [lia | do 3 eexists; reflexivity].
Qed.

Lemma loop_body_status_ok (E : env) :
  preserves (fun st => Forall status_ok (posted (calls st))) (loop_body E).
Proof.
  apply preserves_bind.
  - apply next_doc_preserves; cbn; intros st ? H; [exact H|]. now readers_simpl.
  - apply process_summary_status_ok.
Qed.

(** X6 - Every status a run hands to [update_with_media] has at most 279
    characters and is the template ([title by author & co-workers], a blank
    line, the link) over a link that starts with [doiRootURL]. *)
Theorem posted_statuses_fit (E : env) (lines : list string) :
  Forall status_ok (posted (calls (snd (bot E (initial_state lines))))).
Proof.
  apply (bot_invariant E lines (fun st => Forall status_ok (posted (calls st)))
           (fun st => Forall status_ok (posted (calls st)))).
  - intros e _. constructor.
  - intros Hstart.
    destruct (loop_entry_facts E (initial_state lines) Hstart) as (_ & _ & Hcalls & _).
    rewrite Hcalls. constructor.
  - apply loop_body_status_ok.
  - auto.
  - auto.
Qed.

(** ** The temporary file over a whole run *)




(** ** The listing requests of a run *)

Lemma offsets_S (k : nat) : offsets (S k) = offsets k ++ [k * pagesize].
Proof.
  unfold offsets. rewrite seq_S, map_app. reflexivity.
Qed.

Lemma next_doc_paging (E : env) : preserves paging (next_doc E).
Proof.
  intros st [k [Hreq Hdoc]]. unfold paging, next_doc, fetch_page.
  destruct (doc st) as [|n [|x rest]| |] eqn:Hgen.
  - subst k.
    destruct (e_listing E (calls st) 0) as [|r|[|x rest]]; cbn [snd calls doc set_doc record_call];
      exists 1; (split; [rewrite listings_app, Hreq; reflexivity|]);
      try exact I; reflexivity.
  - destruct (e_listing E (calls st) (n + pagesize)) as [|r|[|x rest]];
      cbn [snd calls doc set_doc record_call];
      exists (S k);
      (split; [rewrite listings_app, Hreq, offsets_S; cbn [listings]; now rewrite Hdoc|]);
      try exact I.
    unfold pagesize in *. lia.
  - exists k. cbn [snd calls doc set_doc]. split; [exact Hreq|].
    unfold pagesize in *. lia.
  - exists k. cbn [snd calls doc set_doc]. auto.
  - exists k. cbn [snd]. rewrite Hgen. auto.
Qed.

Lemma process_summary_paging (E : env) (l : summary) :
  preserves paging (process_summary E l).
Proof.
  intros st [k [Hreq Hdoc]]. unfold paging.
  unfold_bot. split_cases.
  all: exists k; readers_simpl; split; [exact Hreq | exact Hdoc].
Qed.

Lemma loop_body_paging (E : env) : preserves paging (loop_body E).
Proof.
  apply preserves_bind; [apply next_doc_paging | apply process_summary_paging].
Qed.

(** X8 - Whatever the listing answers, the listing requests of a run are
    made at the offsets 0, 100, 200, ... in this order, each one [pagesize]
    after the one before, with none left out and none repeated. *)
Theorem listing_requests_in_sequence (E : env) (lines : list string) :
  exists k, listings (calls (snd (bot E (initial_state lines)))) = offsets k.
Proof.
  apply (bot_invariant E lines paging
           (fun st => exists k, listings (calls st) = offsets k)).
  - intros e _. now exists 0.
  - intros Hstart. exists 0.
    unfold loop_entry, startup, load_id_log, write_log, bind, modify.
    rewrite Hstart. cbn. auto.
  - apply loop_body_paging.
  - intros st [k [H _]]. now exists k.
  - intros st l [k [H _]]. now exists k.
Qed.

Lemma next_doc_lazy (E : env) (st : state) :
  length (listings (calls (snd (next_doc E st)))) <= S (length (listings (calls st)))
  /\ taken (calls (snd (next_doc E st))) = taken (calls st).
Proof.
  unfold next_doc, fetch_page. split_cases; readers_simpl;
    rewrite ?length_app; cbn; split; reflexivity || lia.
Qed.

Lemma process_summary_lazy (E : env) (l : summary) (st : state) :
  listings (calls (snd (process_summary E l st))) = listings (calls st).
Proof.
  unfold_bot. split_cases; readers_simpl; reflexivity.
Qed.

Lemma loop_body_lazy (E : env) :
  hoare (fun st => length (listings (calls st)) <= length (taken (calls st)))
    (loop_body E)
    (fun r st =>
       match r with
       | Ret _ => length (listings (calls st)) <= length (taken (calls st))
       | Raise _ => length (listings (calls st)) <= S (length (taken (calls st)))
       end).
Proof.
  intros st H. unfold loop_body, bind.
  destruct (next_doc_lazy E st) as [Hreq Htaken].
  destruct (next_doc E st) as [[l|e] st1]; cbn [fst snd] in *.
  - pose proof (process_summary_lazy E l st1) as Hsame.
    pose proof (process_summary_taken E l st1) as Hitem.
    destruct (process_summary E l st1) as [[[]|e] st2]; cbn [fst snd] in *;
      rewrite Hsame, Hitem, Htaken, length_app; cbn; lia.
  - rewrite Htaken. lia.
Qed.

(** X9 - The listing is read lazily: at any end of a run, the number of
    listing requests made is at most one more than the number of summaries
    the loop took, and not more than that number when the run reached its
    last line. *)
Theorem listing_is_lazy (E : env) (lines : list string) :
  let st' := snd (bot E (initial_state lines)) in
  length (listings (calls st')) <= S (length (taken (calls st')))
  /\ (fst (bot E (initial_state lines)) = Ret tt ->
      length (listings (calls st')) <= length (taken (calls st'))).
Proof.
  cbv zeta. destruct (e_startup E) as [e|] eqn:Hstart.
  - rewrite (bot_startup_fails E e _ Hstart). cbn. split; [lia | discriminate].
  - rewrite (bot_run E _ Hstart).
    destruct (loop_entry_facts E (initial_state lines) Hstart) as (_ & _ & Hcalls & _).
    assert (Hentry : length (listings (calls (loop_entry E (initial_state lines))))
                     <= length (taken (calls (loop_entry E (initial_state lines))))).
    { rewrite Hcalls. cbn. lia. }
    pose proof (main_loop_hoare E _ _ (loop_body_lazy E) (e_getsizeof E) _ Hentry) as H.
    destruct (main_loop E (e_getsizeof E) _) as [[[]|e] st']; cbn in *.
    + split; [lia | auto].
    + split; [exact H | discriminate].
Qed.

Lemma listing_is_lazy_witness :
  let run := bot (world 2 ["5"; "6"; "7"; "8"] detail_3 200 PostOk) (initial_state []) in
  fst run = Ret tt
  /\ listings (calls (snd run)) = [0]
  /\ length (listings (calls (snd run))) <= length (taken (calls (snd run))).
Proof.
  cbv zeta. split; [reflexivity|]. split; [reflexivity|].
  apply (proj2 (listing_is_lazy (world 2 ["5"; "6"; "7"; "8"] detail_3 200 PostOk) [])).
  reflexivity.
Defined.

(** ** One new preprint: exceptions and the author *)

Lemma process_new_raises (E : env) (preprint_id : string) (st : state) :
  match fst (process_new E preprint_id st) with
  | Ret _ => True
  | Raise _ =>
      id_log_txt (snd (process_new E preprint_id st)) = id_log_txt st
      /\ preprints_added (snd (process_new E preprint_id st)) = preprints_added st
      /\ preprints_tweeted (snd (process_new E preprint_id st)) = preprints_tweeted st
      /\ preprints_tweeted_FAILED (snd (process_new E preprint_id st))
         = preprints_tweeted_FAILED st
  end.
Proof.
  unfold_bot. split_cases; auto.
Qed.

(** X10 - Whatever exception ends the processing of a new preprint (the
    detail request, the author list, the download, the Twitter call), it
    leaves [id_log.txt] and the three counters exactly as they were before
    that preprint. *)
Theorem exception_leaves_log_and_counters (E : env) (preprint_id : string)
    (st : state) (e : exn) :
  fst (process_new E preprint_id st) = Raise e ->
  id_log_txt (snd (process_new E preprint_id st)) = id_log_txt st
  /\ preprints_added (snd (process_new E preprint_id st)) = preprints_added st
  /\ preprints_tweeted (snd (process_new E preprint_id st)) = preprints_tweeted st
  /\ preprints_tweeted_FAILED (snd (process_new E preprint_id st))
     = preprints_tweeted_FAILED st.
Proof.
  intros H. pose proof (process_new_raises E preprint_id st) as Hraise.
  now rewrite H in Hraise.
Qed.

Lemma exception_leaves_log_and_counters_witness :
  let run := process_new two_pages "3" (initial_state ["1"; "2"]) in
  fst run = Raise HTTPError
  /\ id_log_txt (snd run) = ["1"; "2"]
  /\ preprints_added (snd run) = 0.
Proof.
  cbv zeta.
  destruct (exception_leaves_log_and_counters two_pages "3" (initial_state ["1"; "2"])
              HTTPError eq_refl) as (Hlog & Hadded & _).
  split; [reflexivity|]. split; [exact Hlog | exact Hadded].
Defined.

(** X11 - A detail record with an empty author list: [authorData[-1]]
    raises [IndexError] right after the detail request; [prepare_tweet] is not
    called, nothing is downloaded or posted. *)
Theorem empty_author_list_raises (E : env) (preprint_id : string) (st : state)
    (d : preprint) :
  e_detail E (calls st) preprint_id = DetailOk d ->
  authors d = [] ->
  fst (process_new E preprint_id st) = Raise IndexError
  /\ calls (snd (process_new E preprint_id st)) = calls st ++ [EvDetail preprint_id].
Proof.
  intros Hd Hnone. unfold_bot. cbn. rewrite Hd. cbn. rewrite Hnone. cbn.
  split; reflexivity.
Qed.

Lemma empty_author_list_raises_witness :
  let d := {| p_id := JStr "3"; title := "Foo"; authors := []; doi := "10.1/abc";
              thumb := "t" |} in
  let E := world 1 ["3"] d 200 PostOk in
  fst (process_new E "3" (initial_state [])) = Raise IndexError
  /\ calls (snd (process_new E "3" (initial_state []))) = [EvDetail "3"].
Proof.
  cbv zeta.
  apply (empty_author_list_raises
           (world 1 ["3"] {| p_id := JStr "3"; title := "Foo"; authors := [];
                             doi := "10.1/abc"; thumb := "t" |} 200 PostOk)
           "3" (initial_state [])
           {| p_id := JStr "3"; title := "Foo"; authors := []; doi := "10.1/abc";
              thumb := "t" |}); reflexivity.
Defined.

Lemma last_item_app {A : Type} (l : list A) (a : A) : last_item (l ++ [a]) = Some a.
Proof.
  induction l as [|x l IH]; [reflexivity|].
  simpl. rewrite IH. now destruct (l ++ [a]) eqn:Heq; [destruct l; discriminate|].
Qed.

Lemma last_item_none {A : Type} (l : list A) : last_item l = None <-> l = [].
Proof.
  split; [|now intros ->].
  induction l as [|x l IH]; [reflexivity|]. simpl.
  destruct l as [|y l]; [discriminate|]. intros H. specialize (IH H). discriminate.
Qed.

(** X12 - [authorData[-1]] on a list: [None] exactly on the empty list, and
    otherwise the element after which nothing follows. *)
Theorem last_item_spec {A : Type} (l : list A) :
  (last_item l = None <-> l = [])
  /\ (forall a, last_item l = Some a <-> exists others, l = others ++ [a]).
Proof.
  split; [apply last_item_none|].
  intros a. split.
  - intros H. destruct l as [|x l] using rev_ind.
    + discriminate.
    + rewrite last_item_app in H. injection H as ->. now exists l.
  - intros [others ->]. apply last_item_app.
Qed.

(** X13 - Whatever the number of authors of a new preprint, [prepare_tweet]
    is called with the title of the detail record, the [full_name] of its last
    author and [doiRootURL] followed by its [doi]; and if a status is posted
    for it, it is the template over these three. *)
Theorem last_author_is_credited (E : env) (preprint_id : string) (st : state)
    (d : preprint) (others : list author) (a : author) :
  e_detail E (calls st) preprint_id = DetailOk d ->
  authors d = others ++ [a] ->
  let st' := snd (process_new E preprint_id st) in
  let preprintURL := (doiRootURL ++ doi d)%string in
  prepared (calls st') = prepared (calls st) ++ [preprint_id]
  /\ In (CallPrepareTweet preprint_id (title d) (full_name a) preprintURL) (calls st')
  /\ (posted (calls st') = posted (calls st)
      \/ posted (calls st')
         = posted (calls st) ++ [template (title d) (full_name a) preprintURL]).
Proof.
  intros Hd Hauthors. cbv zeta.
  unfold_bot. cbn. rewrite Hd. cbn. rewrite Hauthors, last_item_app.
  split_cases.
  all: rewrite ?template_eq; readers_simpl.
  all: split; [reflexivity|]; split;
    [ rewrite ?in_app_iff; cbn; tauto | auto ].
Qed.

Lemma last_author_is_credited_witness :
  let d := {| p_id := JStr "3"; title := "Foo";
              authors := [ {| full_name := "First" |}; {| full_name := "Last" |} ];
              doi := "10.1/abc"; thumb := "t" |} in
  let st' := snd (process_new (world 1 ["3"] d 200 PostOk) "3" (initial_state [])) in
  In (CallPrepareTweet "3" "Foo" "Last" "https://doi.org/10.1/abc") (calls st')
  /\ posted (calls st') = [template "Foo" "Last" "https://doi.org/10.1/abc"].
Proof.
  cbv zeta. split; [|reflexivity].
  apply (last_author_is_credited
           (world 1 ["3"] {| p_id := JStr "3"; title := "Foo";
                             authors := [ {| full_name := "First" |};
                                          {| full_name := "Last" |} ];
                             doi := "10.1/abc"; thumb := "t" |} 200 PostOk)
           "3" (initial_state [])
           {| p_id := JStr "3"; title := "Foo";
              authors := [ {| full_name := "First" |}; {| full_name := "Last" |} ];
              doi := "10.1/abc"; thumb := "t" |}
           [ {| full_name := "First" |} ] {| full_name := "Last" |});
    reflexivity.
Defined.

(** ** The generator over any number of pages *)

Lemma offsets_from_S (n k : nat) :
  offsets_from n (S k) = n :: offsets_from (n + pagesize) k.
Proof.
  unfold offsets_from. cbn [seq map]. rewrite <- seq_shift, map_map.
  f_equal; [unfold pagesize; lia|]. apply map_ext. intros i. unfold pagesize. lia.
Qed.

Lemma offsets_from_0 (k : nat) : offsets_from 0 k = offsets k.
Proof.
  unfold offsets_from, offsets. apply map_ext. intros i. reflexivity.
Qed.

(** A request answered by an HTTP error ends the generator on
    [HTTPError]. *)
Lemma py_list_http_error (E : env) (n fuel : nat) (st : state) :
  e_listing E (calls st) n = ListHTTPError ->
  at_request st n ->
  py_list E (S fuel) st = (Raise HTTPError, set_doc GenDone (record_call (EvListing n) st)).
Proof.
  intros Herr [[Hdoc ->]|[m [Hdoc ->]]];
    simpl; unfold next_doc, fetch_page; rewrite Hdoc, Herr; reflexivity.
Qed.

Lemma py_list_serves (E : env) (last : listing_response) :
  (forall x rest, last <> ListPage (x :: rest)) ->
  forall (pages : list (list summary)) (n extra : nat) (st : state),
    at_request st n ->
    serves E (calls st) n pages last ->
    let run := py_list E (length (concat pages) + 2 + extra) st in
    fst run = drained pages last
    /\ calls (snd run) = calls st ++ map EvListing (offsets_from n (S (length pages)))
    /\ doc (snd run) = GenDone.
Proof.
  intros Hlast pages. induction pages as [|p ps IH]; intros n extra st Hat Hserves.
  - cbn in Hserves. cbn [concat length Nat.add]. unfold offsets_from. cbn [seq map].
    replace (n + 0 * pagesize) with n by lia.
    destruct last as [|r|[|x rest]].
    + rewrite (py_list_http_error E n _ st Hserves Hat). cbn. repeat split.
    + destruct Hat as [[Hdoc ->]|[m [Hdoc ->]]].
      * rewrite (py_list_single E 0 extra st r Hserves) by (left; auto).
        cbn. repeat split.
      * rewrite (py_list_single E (m + pagesize) extra st r Hserves)
          by (right; exists m; auto).
        cbn. repeat split.
    + destruct Hat as [[Hdoc ->]|[m [Hdoc ->]]].
      * rewrite (py_list_empty_page E 0 (S extra) st Hserves) by (left; auto).
        cbn. repeat split.
      * rewrite (py_list_empty_page E (m + pagesize) (S extra) st Hserves)
          by (right; exists m; auto).
        cbn. repeat split.
    + now destruct (Hlast x rest).
  - destruct Hserves as (Hne & Hpage & Hrest).
    destruct p as [|x rest]; [contradiction|].
    cbn [concat]. rewrite length_app. cbn [length].
    replace (S (length rest) + length (concat ps) + 2 + extra)
      with (S (length rest + (length (concat ps) + 2 + extra))) by lia.
    assert (Hpy : py_list E (S (length rest + (length (concat ps) + 2 + extra))) st
                  = match py_list E (length (concat ps) + 2 + extra)
                            (set_doc (GenPage n []) (record_call (EvListing n) st)) with
                    | (Ret (Some xs), st') => (Ret (Some (x :: rest ++ xs)), st')
                    | other => other
                    end).
    { destruct Hat as [[Hdoc ->]|[m [Hdoc ->]]].
      - apply (py_list_page E 0 _ st x rest Hpage). left. auto.
      - apply (py_list_page E (m + pagesize) _ st x rest Hpage). right. exists m. auto. }
    rewrite Hpy. clear Hpy.
    specialize (IH (n + pagesize) extra
                  (set_doc (GenPage n []) (record_call (EvListing n) st))).
    destruct IH as (Hres & Hcalls & Hdone).
    { right. exists n. split; reflexivity. }
    { exact Hrest. }
    rewrite offsets_from_S. cbn [map length].
    destruct (py_list E (length (concat ps) + 2 + extra) _) as [[[xs|]|e] st'];
      cbn [fst snd] in *.
    + split; [|split; [|exact Hdone]].
      * unfold drained in *. destruct last as [|r|l]; try discriminate;
          injection Hres as ->; cbn; now rewrite <- ?app_assoc.
      * rewrite Hcalls. cbn. now rewrite <- app_assoc.
    + unfold drained in Hres. destruct last; discriminate.
    + split; [|split; [|exact Hdone]].
      * unfold drained in *. destruct last; try discriminate. exact Hres.
      * rewrite Hcalls. cbn. now rewrite <- app_assoc.
Qed.

(** X14 - Pages of any lengths: against a listing that answers any number of
    pages, none empty but as short or long as it likes, and then an empty
    page or a single record, [query_list] returns the items of all the pages
    in order (and the single record after them), having asked at the offsets
    0, 100, 200, ... once for each page and once more; a short page does not
    end the paging. *)
Theorem query_list_all_pages (E : env) (st : state) (pages : list (list summary))
    (last : listing_response) (fuel : nat) :
  serves E (calls st) 0 pages last ->
  last <> ListHTTPError ->
  (forall x rest, last <> ListPage (x :: rest)) ->
  length (concat pages) + 2 <= fuel ->
  let run := query_list E fuel st in
  fst run = Ret (Some (concat pages ++ match last with ListSingle r => [r] | _ => [] end))
  /\ calls (snd run) = calls st ++ map EvListing (offsets (S (length pages)))
  /\ doc (snd run) = GenDone.
Proof.
  intros Hserves Hok Hlast Hfuel. cbv zeta.
  change (query_list E fuel st) with (py_list E fuel (set_doc GenFresh st)).
  replace fuel with (length (concat pages) + 2 + (fuel - (length (concat pages) + 2)))
    by lia.
  destruct (py_list_serves E last Hlast pages 0 (fuel - (length (concat pages) + 2))
              (set_doc GenFresh st)) as (Hres & Hcalls & Hdone).
  - left. auto.
  - exact Hserves.
  - rewrite Hres, Hcalls, Hdone, offsets_from_0. split; [|auto].
    unfold drained. destruct last; [contradiction | reflexivity | now rewrite app_nil_r].
Qed.

(** X15 - When a request of the listing fails after some pages were
    answered, [query_list] raises [HTTPError]: the items of the pages before
    are not returned, and the generator is finished. *)
Theorem query_list_http_error (E : env) (st : state) (pages : list (list summary))
    (fuel : nat) :
  serves E (calls st) 0 pages ListHTTPError ->
  length (concat pages) + 2 <= fuel ->
  let run := query_list E fuel st in
  fst run = Raise HTTPError
  /\ calls (snd run) = calls st ++ map EvListing (offsets (S (length pages)))
  /\ doc (snd run) = GenDone.
Proof.
  intros Hserves Hfuel. cbv zeta.
  change (query_list E fuel st) with (py_list E fuel (set_doc GenFresh st)).
  replace fuel with (length (concat pages) + 2 + (fuel - (length (concat pages) + 2)))
    by lia.
  destruct (py_list_serves E ListHTTPError ltac:(discriminate) pages 0
              (fuel - (length (concat pages) + 2)) (set_doc GenFresh st))
    as (Hres & Hcalls & Hdone).
  - left. auto.
  - exact Hserves.
  - rewrite Hres, Hcalls, Hdone, offsets_from_0. auto.
Qed.

Lemma query_list_all_pages_witness :
  let run := query_list ragged_pages 6 (initial_state []) in
  fst run = Ret (Some (map (fun z => {| s_id := JInt z |}) [11; 12; 13; 14]%Z))
  /\ calls (snd run) = [EvListing 0; EvListing 100; EvListing 200]
  /\ doc (snd run) = GenDone.
Proof.
  cbv zeta.
  apply (query_list_all_pages ragged_pages (initial_state [])
           [map (fun z => {| s_id := JInt z |}) [11; 12; 13]%Z; [ {| s_id := JInt 14 |} ]]
           (ListPage []) 6).
  - cbn. repeat split; discriminate.
  - discriminate.
  - discriminate.
  - cbn. lia.
Defined.

Lemma query_list_http_error_witness :
  let run := query_list failing_listing 4 (initial_state []) in
  fst run = Raise HTTPError
  /\ calls (snd run) = [EvListing 0; EvListing 100]
  /\ doc (snd run) = GenDone.
Proof.
  cbv zeta.
  apply (query_list_http_error failing_listing (initial_state [])
           [map (fun z => {| s_id := JInt z |}) [11; 12]%Z] 4).
  - cbn. repeat split; discriminate.
  - cbn. lia.
Defined.

(** ** The files of the script *)

Section Files.

(* String concatenation computes again in this section. *)
#[local] Arguments append !s1 s2 : simpl nomatch.
#[local] Arguments String.length !s : simpl nomatch.

Lemma string_app_nil_r (s : string) : (s ++ EmptyString)%string = s.
Proof.
  induction s as [|c s IH]; simpl; [reflexivity | now rewrite IH].
Qed.

Lemma plain_app (a b : string) : plain (a ++ b)%string = plain a && plain b.
Proof.
  induction a as [|c a IH]; simpl; [reflexivity|].
  rewrite IH. now rewrite !andb_assoc.
Qed.

Lemma plain_head (c : ascii) (s : string) :
  plain (String c s) = true -> is_nl c = false /\ is_cr c = false /\ plain s = true.
Proof.
  simpl. intros H. apply andb_prop in H. destruct H as [H Hs].
  apply andb_prop in H. destruct H as [Hn Hc].
  apply negb_true_iff in Hn. apply negb_true_iff in Hc. auto.
Qed.

Lemma universal_newlines_plain (s rest : string) :
  plain s = true ->
  universal_newlines (s ++ rest) = (s ++ universal_newlines rest)%string.
Proof.
  induction s as [|c s IH]; intros Hs; [reflexivity|].
  apply plain_head in Hs. destruct Hs as (_ & Hc & Hs).
  simpl. rewrite Hc. now rewrite IH.
Qed.

Lemma universal_newlines_file (lines : list string) (rest : string) :
  Forall (fun l => plain l = true) lines ->
  universal_newlines (file_of lines ++ rest)
  = (file_of lines ++ universal_newlines rest)%string.
Proof.
  intros Hlines. induction Hlines as [|l lines Hl _ IH]; [reflexivity|].
  cbn [file_of]. rewrite !string_app_assoc.
  rewrite (universal_newlines_plain l) by exact Hl.
  change ((nl ++ file_of lines ++ rest)%string)
    with (String "010" (file_of lines ++ rest)%string).
  cbn [universal_newlines is_cr Ascii.eqb]. cbn. now rewrite IH.
Qed.

Lemma text_lines_line (l rest : string) :
  plain l = true -> text_lines (l ++ nl ++ rest) = (l ++ nl)%string :: text_lines rest.
Proof.
  induction l as [|c l IH]; intros Hl; [reflexivity|].
  apply plain_head in Hl. destruct Hl as (Hc & _ & Hl).
  cbn [text_lines append]. rewrite Hc. now rewrite IH.
Qed.

Lemma text_lines_plain (t : string) :
  plain t = true -> text_lines t = match t with EmptyString => [] | _ => [t] end.
Proof.
  induction t as [|c t IH]; intros Ht; [reflexivity|].
  apply plain_head in Ht. destruct Ht as (Hc & _ & Ht).
  simpl. rewrite Hc, (IH Ht). now destruct t.
Qed.

Lemma text_lines_file (lines : list string) (rest : string) :
  Forall (fun l => plain l = true) lines ->
  text_lines (file_of lines ++ rest)
  = map (fun l => (l ++ nl)%string) lines ++ text_lines rest.
Proof.
  intros Hlines. induction Hlines as [|l lines Hl _ IH]; [reflexivity|].
  cbn [file_of map]. rewrite !string_app_assoc.
  rewrite (text_lines_line l) by exact Hl. now rewrite IH.
Qed.

Lemma rstrip_nl_plain (t : string) : plain t = true -> rstrip_nl t = t.
Proof.
  induction t as [|c t IH]; intros Ht; [reflexivity|].
  apply plain_head in Ht. destruct Ht as (Hc & _ & Ht).
  simpl. rewrite (IH Ht), Hc. now destruct t.
Qed.

Lemma rstrip_nl_line (l : string) : plain l = true -> rstrip_nl (l ++ nl) = l.
Proof.
  induction l as [|c l IH]; intros Hl; [reflexivity|].
  apply plain_head in Hl. destruct Hl as (Hc & _ & Hl).
  simpl. rewrite (IH Hl), Hc. now destruct l.
Qed.

Lemma lstrip_nl_plain (t rest : string) :
  plain t = true -> t <> EmptyString -> lstrip_nl (t ++ rest) = (t ++ rest)%string.
Proof.
  destruct t as [|c t]; intros Ht Hne; [contradiction|].
  apply plain_head in Ht. destruct Ht as (Hc & _). simpl. now rewrite Hc.
Qed.

Lemma strip_nl_line (l : string) : plain l = true -> strip_nl (l ++ nl) = l.
Proof.
  intros Hl. unfold strip_nl. destruct l as [|c l]; [reflexivity|].
  rewrite lstrip_nl_plain by (auto; discriminate). now apply rstrip_nl_line.
Qed.

Lemma strip_nl_plain (t : string) : plain t = true -> strip_nl t = t.
Proof.
  intros Ht. unfold strip_nl. destruct t as [|c t]; [reflexivity|].
  rewrite <- (string_app_nil_r (String c t)) at 1.
  rewrite lstrip_nl_plain by (auto; discriminate).
  rewrite string_app_nil_r. now apply rstrip_nl_plain.
Qed.

(** The entries read from a file of whole lines followed by a last piece
    that no line end closes. *)
Lemma read_id_log_file (lines : list string) (tail : string) :
  Forall (fun l => plain l = true) lines -> plain tail = true ->
  read_id_log (file_of lines ++ tail)
  = lines ++ match tail with EmptyString => [] | _ => [tail] end.
Proof.
  intros Hlines Htail. unfold read_id_log, py_list_file.
  rewrite universal_newlines_file by exact Hlines.
  rewrite <- (string_app_nil_r tail) at 1.
  rewrite (universal_newlines_plain tail) by exact Htail.
  cbn [universal_newlines]. rewrite string_app_nil_r.
  rewrite text_lines_file by exact Hlines.
  rewrite map_app, map_map, (text_lines_plain tail Htail).
  f_equal.
  - rewrite <- (map_id lines) at 2. apply map_ext_in. intros l Hl.
    apply strip_nl_line. rewrite Forall_forall in Hlines. now apply Hlines.
  - destruct tail; [reflexivity|]. cbn [map]. now rewrite strip_nl_plain.
Qed.

Lemma file_of_app (l1 l2 : list string) :
  file_of (l1 ++ l2) = (file_of l1 ++ file_of l2)%string.
Proof.
  induction l1 as [|l l1 IH]; [reflexivity|].
  cbn [file_of app]. now rewrite IH, !string_app_assoc.
Qed.

Lemma write_ids (ids : list string) (raw : string) :
  fold_left write_id ids raw = (raw ++ file_of ids)%string.
Proof.
  revert raw. induction ids as [|i ids IH]; intros raw; cbn [fold_left file_of].
  - now rewrite string_app_nil_r.
  - rewrite IH. unfold write_id. now rewrite !string_app_assoc.
Qed.

End Files.

(** X16 - The log file round trip: after the script has appended the
    identifiers [ids], one [write] each, to a file of whole lines, reading
    the file as the script does at its start gives the entries that were
    there followed by [ids], in order - provided no entry holds a line end. *)
Theorem id_log_round_trip (lines ids : list string) :
  Forall (fun l => plain l = true) lines ->
  Forall (fun i => plain i = true) ids ->
  read_id_log (fold_left write_id ids (file_of lines)) = lines ++ ids.
Proof.
  intros Hlines Hids.
  rewrite write_ids, <- file_of_app.
  rewrite <- (string_app_nil_r (file_of (lines ++ ids))).
  rewrite read_id_log_file; [apply app_nil_r | | reflexivity].
  apply Forall_app. auto.
Qed.

Lemma id_log_round_trip_witness :
  read_id_log (fold_left write_id ["3"; "4"] (file_of ["1"; "2"])) = ["1"; "2"; "3"; "4"].
Proof.
  apply (id_log_round_trip ["1"; "2"] ["3"; "4"]);
    repeat constructor.
Defined.

(** X17 - A log file whose last line has no line end: that last piece is
    read as an entry, but the first identifier the script appends is glued
    to it, so that afterwards neither of the two is read back - one entry
    made of both is. *)
Theorem unterminated_log_glues_next_id (lines : list string) (tail preprint_id : string) :
  Forall (fun l => plain l = true) lines ->
  plain tail = true -> tail <> EmptyString ->
  plain preprint_id = true ->
  read_id_log (file_of lines ++ tail) = lines ++ [tail]
  /\ read_id_log (write_id (file_of lines ++ tail) preprint_id)
     = lines ++ [(tail ++ preprint_id)%string].
Proof.
  intros Hlines Htail Hne Hid. split.
  - rewrite read_id_log_file by assumption. now destruct tail.
  - unfold write_id.
    replace ((file_of lines ++ tail) ++ preprint_id ++ nl)%string
      with (file_of (lines ++ [(tail ++ preprint_id)%string]) ++ EmptyString)%string.
    + rewrite read_id_log_file; [apply app_nil_r | | reflexivity].
      apply Forall_app. split; [exact Hlines|]. constructor; [|constructor].
      rewrite plain_app, Htail, Hid. reflexivity.
    + rewrite file_of_app. cbn [file_of].
      now rewrite !string_app_nil_r, !string_app_assoc.
Qed.

Lemma unterminated_log_glues_next_id_witness :
  read_id_log (file_of ["1"] ++ "2") = ["1"; "2"]
  /\ read_id_log (write_id (file_of ["1"] ++ "2") "3") = ["1"; "23"].
Proof.
  apply (unterminated_log_glues_next_id ["1"] "2" "3");
    repeat constructor; discriminate.
Defined.

(** ** Identifiers as text *)

Lemma plain_digits (d : Decimal.uint) : plain (NilEmpty.string_of_uint d) = true.
Proof.
  induction d; simpl; auto.
Qed.

Lemma plain_uint (d : Decimal.uint) : plain (NilZero.string_of_uint d) = true.
Proof.
  destruct d; try apply (plain_digits (_ d)); reflexivity.
Qed.

Lemma to_int_proper (z : Z) :
  Z.to_int z <> Decimal.Pos Decimal.Nil /\ Z.to_int z <> Decimal.Neg Decimal.Nil.
Proof.
  destruct z as [|p|p]; cbn; split; try discriminate;
    intros H; injection H; apply Unsigned.to_uint_nonnil.
Qed.

Lemma py_str_int_inj (a b : Z) : py_str (JInt a) = py_str (JInt b) -> a = b.
Proof.
  cbn. intros H. apply to_int_inj.
  destruct (to_int_proper a) as [Ha1 Ha2]. destruct (to_int_proper b) as [Hb1 Hb2].
  pose proof (NilZero.isi (Z.to_int a) Ha1 Ha2) as Hia.
  pose proof (NilZero.isi (Z.to_int b) Hb1 Hb2) as Hib.
  rewrite H in Hia. rewrite Hia in Hib. now injection Hib.
Qed.

Lemma plain_py_str (z : Z) : plain (py_str (JInt z)) = true.
Proof.
  cbn. destruct (Z.to_int z) as [d|d]; cbn; apply plain_uint.
Qed.

(** X18 - [str] of a numeric identifier: two numbers that differ give
    different texts, so that they never share an entry of the log, and the
    text has no line end in it. *)
Theorem numeric_ids_as_text (a b : Z) :
  (py_str (JInt a) = py_str (JInt b) -> a = b)
  /\ plain (py_str (JInt a)) = true.
Proof.
  split; [apply py_str_int_inj | apply plain_py_str].
Qed.

Lemma numeric_ids_as_text_witness :
  (py_str (JInt 305) = py_str (JInt 305) -> 305%Z = 305%Z)
  /\ py_str (JInt 305) = "305"
  /\ py_str (JInt (-12)) = "-12"
  /\ plain (py_str (JInt 305)) = true.
Proof.
  destruct (numeric_ids_as_text 305 305) as [Hinj Hplain].
  split; [exact Hinj|]. split; [reflexivity|]. split; [reflexivity | exact Hplain].
Defined.

(** X19 - With numeric identifiers, as figshare gives them, the round trip
    holds without any condition: the file made by appending their texts reads
    back as these texts, in order. *)
Theorem numeric_log_reads_back (known new : list Z) :
  let text z := py_str (JInt z) in
  read_id_log (fold_left write_id (map text new) (file_of (map text known)))
  = map text (known ++ new).
Proof.
  cbv zeta. rewrite map_app.
  assert (Hplain : forall zs, Forall (fun l => plain l = true)
                                (map (fun z => py_str (JInt z)) zs)).
  { intros zs. apply Forall_forall. intros l Hl. apply in_map_iff in Hl.
    destruct Hl as [z [<- _]]. apply plain_py_str. }
  rewrite write_ids, <- file_of_app.
  rewrite <- (string_app_nil_r (file_of _)).
  rewrite read_id_log_file; [apply app_nil_r | | reflexivity].
  apply Forall_app. auto.
Qed.

(** ** The keys file *)

(** X20 - A keys file of five lines is read into the five secrets in the
    order of the lines; lines after the fifth are ignored, and it makes no
    difference whether the fifth line is closed by a line end. *)
Theorem read_keys_five_lines (k0 k1 k2 k3 k4 : string) (extra : list string)
    (st : state) :
  Forall (fun l => plain l = true) (k0 :: k1 :: k2 :: k3 :: k4 :: extra) ->
  let loaded :=
    (Ret {| twitKey := k0; twitSecret := k1; twitToken := k2;
            twitToken_secret := k3; chemRxiv_token := k4 |},
     set_activity_log
       (activity_log st ++ ["Keys, tokens and secrets successfully loaded..."]) st) in
  read_keys (file_of (k0 :: k1 :: k2 :: k3 :: k4 :: extra)) st = loaded
  /\ (k4 <> EmptyString ->
      read_keys (file_of [k0; k1; k2; k3] ++ k4) st = loaded).
Proof.
  intros Hplain. cbv zeta. unfold read_keys.
  change (fun raw => map strip_nl (py_list_file raw)) with read_id_log.
  split.
  - change (map strip_nl (py_list_file (file_of (k0 :: k1 :: k2 :: k3 :: k4 :: extra))))
      with (read_id_log (file_of (k0 :: k1 :: k2 :: k3 :: k4 :: extra))).
    rewrite <- (string_app_nil_r (file_of _)).
    rewrite read_id_log_file by (exact Hplain || reflexivity).
    reflexivity.
  - intros Hne.
    change (map strip_nl (py_list_file (file_of [k0; k1; k2; k3] ++ k4)))
      with (read_id_log (file_of [k0; k1; k2; k3] ++ k4)).
    rewrite read_id_log_file.
    + destruct k4; [contradiction | reflexivity].
    + repeat (apply Forall_cons_iff in Hplain; destruct Hplain as [? Hplain]).
      repeat constructor; assumption.
    + repeat (apply Forall_cons_iff in Hplain; destruct Hplain as [? Hplain]).
      assumption.
Qed.

Lemma read_keys_five_lines_witness :
  fst (read_keys (file_of ["a"; "b"; "c"; "d"; "e"; "note"]) (initial_state []))
  = Ret {| twitKey := "a"; twitSecret := "b"; twitToken := "c";
           twitToken_secret := "d"; chemRxiv_token := "e" |}
  /\ fst (read_keys (file_of ["a"; "b"; "c"; "d"] ++ "e") (initial_state []))
     = Ret {| twitKey := "a"; twitSecret := "b"; twitToken := "c";
              twitToken_secret := "d"; chemRxiv_token := "e" |}.
Proof.
  destruct (read_keys_five_lines "a" "b" "c" "d" "e" ["note"] (initial_state []))
    as [Hall Hopen].
  - repeat constructor.
  - split.
    + now rewrite Hall.
    + rewrite Hopen; [reflexivity | discriminate].
Defined.

(** X21 - A keys file of fewer than five lines: the script first logs that
    the keys were loaded and only then fails, with [IndexError], on the first
    missing line. *)
Theorem read_keys_short_file (raw : string) (st : state) :
  length (py_list_file raw) < 5 ->
  fst (read_keys raw st) = Raise IndexError
  /\ activity_log (snd (read_keys raw st))
     = activity_log st ++ ["Keys, tokens and secrets successfully loaded..."].
Proof.
  intros Hshort. unfold read_keys.
  destruct (py_list_file raw) as [|a [|b [|c [|d [|e l]]]]];
    cbn in Hshort; try lia; split; reflexivity.
Qed.

Lemma read_keys_short_file_witness :
  fst (read_keys (file_of ["a"; "b"; "c"; "d"]) (initial_state [])) = Raise IndexError
  /\ activity_log (snd (read_keys (file_of ["a"; "b"; "c"; "d"]) (initial_state [])))
     = ["Keys, tokens and secrets successfully loaded..."].
Proof.
  apply (read_keys_short_file (file_of ["a"; "b"; "c"; "d"]) (initial_state [])).
  vm_compute. lia.
Defined.

(** ** Dictionaries *)

Lemma dict_get_set {V : Type} (k k' : string) (v : V) (d : dict V) :
  dict_get k (dict_set k' v d) = if String.eqb k' k then Some v else dict_get k d.
Proof.
  induction d as [|[k0 v0] d IH]; cbn [dict_set dict_get].
  - reflexivity.
  - destruct (String.eqb_spec k0 k') as [->|Hne]; cbn [dict_get].
    + now destruct (String.eqb k' k).
    + rewrite IH. destruct (String.eqb_spec k0 k) as [->|Hk]; [|reflexivity].
      destruct (String.eqb_spec k' k) as [->|]; [contradiction | reflexivity].
Qed.

Lemma dict_keys_set {V : Type} (k : string) (v : V) (d : dict V) :
  map fst (dict_set k v d)
  = if existsb (String.eqb k) (map fst d) then map fst d else map fst d ++ [k].
Proof.
  induction d as [|[k0 v0] d IH]; cbn [dict_set map fst existsb app]; [reflexivity|].
  rewrite (String.eqb_sym k k0).
  destruct (String.eqb k0 k); cbn [map fst orb]; [reflexivity|].
  rewrite IH. now destruct (existsb (String.eqb k) (map fst d)).
Qed.

Lemma dict_set_NoDup {V : Type} (k : string) (v : V) (d : dict V) :
  NoDup (map fst d) -> NoDup (map fst (dict_set k v d)).
Proof.
  intros H. rewrite dict_keys_set.
  destruct (existsb (String.eqb k) (map fst d)) eqn:Hin; [exact H|].
  apply NoDup_app; [exact H | repeat constructor; intros [] | ].
  intros x Hx [Heq|[]]. subst x.
  assert (existsb (String.eqb k) (map fst d) = true); [|congruence].
  apply existsb_exists. exists k. split; [exact Hx | apply String.eqb_refl].
Qed.

Lemma find_app_last {A : Type} (p : A -> bool) (l : list A) (x : A) :
  find p (l ++ [x])
  = match find p l with Some y => Some y | None => if p x then Some x else None end.
Proof.
  induction l as [|y l IH]; cbn [find app]; [reflexivity|].
  now destruct (p y).
Qed.

(** Setting keys one after the other: a key holds what the last item with
    that key gave it, and what it held before when there is none. *)
Lemma dict_get_fold {A V : Type} (key : A -> string) (val : A -> V) (l : list A)
    (d : dict V) (k : string) :
  dict_get k (fold_left (fun acc x => dict_set (key x) (val x) acc) l d)
  = match find (fun x => String.eqb (key x) k) (rev l) with
    | Some x => Some (val x)
    | None => dict_get k d
    end.
Proof.
  revert d. induction l as [|x l IH]; intros d; cbn [fold_left rev]; [reflexivity|].
  rewrite IH, find_app_last, dict_get_set.
  destruct (find (fun y => String.eqb (key y) k) (rev l)); [reflexivity|].
  now destruct (String.eqb (key x) k).
Qed.

Lemma dict_fold_NoDup {A V : Type} (key : A -> string) (val : A -> V) (l : list A)
    (d : dict V) :
  NoDup (map fst d) ->
  NoDup (map fst (fold_left (fun acc x => dict_set (key x) (val x) acc) l d)).
Proof.
  revert d. induction l as [|x l IH]; intros d H; cbn [fold_left]; [exact H|].
  apply IH. now apply dict_set_NoDup.
Qed.

(** X22 - [custom_fields_as_dict]: a name holds the value of the last
    custom field of that name, a name no field has is not a key, and no key
    comes twice. *)
Theorem custom_fields_last_wins {V : Type} (custom_fields : list (custom_field V))
    (name : string) :
  dict_get name (custom_fields_as_dict custom_fields)
  = option_map cf_value
      (find (fun i => String.eqb (cf_name i) name) (rev custom_fields))
  /\ NoDup (map fst (custom_fields_as_dict custom_fields)).
Proof.
  unfold custom_fields_as_dict. split.
  - rewrite dict_get_fold. now destruct (find _ (rev custom_fields)).
  - apply dict_fold_NoDup. constructor.
Qed.

Lemma custom_fields_last_wins_example :
  let fields := [ {| cf_name := "Keywords"; cf_value := 1 |};
                  {| cf_name := "License"; cf_value := 2 |};
                  {| cf_name := "Keywords"; cf_value := 3 |} ] in
  custom_fields_as_dict fields = [("Keywords", 3); ("License", 2)]
  /\ dict_get "Funding" (custom_fields_as_dict fields) = None.
Proof. split; reflexivity. Qed.

Lemma dict_get_find {V : Type} (k : string) (d : dict V) :
  dict_get k d = option_map snd (find (fun kv => String.eqb (fst kv) k) d).
Proof.
  induction d as [|[k0 v0] d IH]; cbn [dict_get find fst]; [reflexivity|].
  now destruct (String.eqb k0 k).
Qed.

Lemma find_rev_unique {V : Type} (k : string) (d : dict V) :
  NoDup (map fst d) ->
  find (fun kv => String.eqb (fst kv) k) (rev d)
  = find (fun kv => String.eqb (fst kv) k) d.
Proof.
  induction d as [|[k0 v0] d IH]; intros Hnd; [reflexivity|].
  cbn [map fst] in Hnd. apply NoDup_cons_iff in Hnd. destruct Hnd as [Hfresh Hnd].
  cbn [rev find fst]. rewrite find_app_last, (IH Hnd). cbn [fst].
  destruct (String.eqb_spec k0 k) as [->|Hne].
  - destruct (find _ d) as [[k1 v1]|] eqn:Hfound; [|reflexivity].
    apply find_some in Hfound. destruct Hfound as [Hin Heq]. cbn in Heq.
    apply String.eqb_eq in Heq. subst k1. destruct Hfresh.
    apply in_map_iff. now exists (k, v1).
  - now destruct (find _ d).
Qed.

(** Copying a dictionary with [{**d}] changes no lookup. *)
Lemma dict_get_copy {V : Type} (k : string) (d : dict V) :
  NoDup (map fst d) -> dict_get k (dict_update [] d) = dict_get k d.
Proof.
  intros Hnd. unfold dict_update.
  rewrite (dict_get_fold fst snd), (find_rev_unique k d Hnd), (dict_get_find k d).
  now destruct (find _ d).
Qed.

Lemma dict_get_page (params : dict json_id) (n : nat) (k : string) :
  dict_get k (page_params params n)
  = if String.eqb "offset" k then Some (JInt (Z.of_nat n))
    else if String.eqb "limit" k then Some (JInt (Z.of_nat pagesize))
    else dict_get k params.
Proof.
  unfold page_params, dict_update. cbn [fold_left fst snd].
  now rewrite !dict_get_set.
Qed.

Lemma dict_get_params_at (params : dict json_id) (j : nat) (k : string) :
  dict_get k (params_at params j)
  = if String.eqb "offset" k then Some (JInt (Z.of_nat (j * pagesize)))
    else if String.eqb "limit" k then Some (JInt (Z.of_nat pagesize))
    else dict_get k params.
Proof.
  induction j as [|j IH]; cbn [params_at]; rewrite dict_get_page; [reflexivity|].
  rewrite IH.
  destruct (String.eqb "offset" k); [reflexivity|].
  now destruct (String.eqb "limit" k).
Qed.

(** X23 - [search_preprints]: in the body of every request of the search,
    the keys [institution], [limit] and [offset] hold 259, the page size and
    the offset of that request, whatever the caller's criteria say about
    them; every other criterion is sent as the caller gave it. *)
Theorem search_request_body (criteria : dict json_id) (j : nat) (k : string) :
  NoDup (map fst criteria) ->
  let body := params_at (search_preprints_params criteria) j in
  dict_get "institution" body = Some (JInt 259)
  /\ dict_get "limit" body = Some (JInt 100)
  /\ dict_get "offset" body = Some (JInt (Z.of_nat (j * 100)))
  /\ (k <> "institution" -> k <> "limit" -> k <> "offset" ->
      dict_get k body = dict_get k criteria).
Proof.
  intros Hnd. cbv zeta. unfold search_preprints_params.
  assert (Hoi : String.eqb "offset" "institution" = false) by reflexivity.
  assert (Hli : String.eqb "limit" "institution" = false) by reflexivity.
  assert (Hol : String.eqb "offset" "limit" = false) by reflexivity.
  split; [|split; [|split]].
  - now rewrite dict_get_params_at, Hoi, Hli, dict_get_set, String.eqb_refl.
  - now rewrite dict_get_params_at, Hol, String.eqb_refl.
  - now rewrite dict_get_params_at, String.eqb_refl.
  - intros Hi Hl Ho. rewrite dict_get_params_at, dict_get_set.
    destruct (String.eqb_spec "offset" k) as [<-|_]; [contradiction|].
    destruct (String.eqb_spec "limit" k) as [<-|_]; [contradiction|].
    destruct (String.eqb_spec "institution" k) as [<-|_]; [contradiction|].
    now apply dict_get_copy.
Qed.

Lemma search_request_body_witness :
  let criteria := [("search_for", JStr "catalysis"); ("institution", JInt 1);
                   ("limit", JInt 5)] in
  let body := params_at (search_preprints_params criteria) 2 in
  dict_get "institution" body = Some (JInt 259)
  /\ dict_get "limit" body = Some (JInt 100)
  /\ dict_get "offset" body = Some (JInt 200)
  /\ dict_get "search_for" body = Some (JStr "catalysis").
Proof.
  cbv zeta.
  destruct (search_request_body
              [("search_for", JStr "catalysis"); ("institution", JInt 1);
               ("limit", JInt 5)] 2 "search_for") as (Hi & Hl & Ho & Hk).
  - repeat constructor; cbn; intuition discriminate.
  - split; [exact Hi|]. split; [exact Hl|]. split; [exact Ho|].
    rewrite Hk by discriminate. reflexivity.
Defined.

(** ** What the counters count *)

Lemma process_summary_counted (E : env) (l : summary) :
  preserves_on_return counted (process_summary E l).
Proof.
  intros st [Htweeted Hfailed]. unfold counted.
  unfold_bot. split_cases.
  all: try exact I.
  all: readers_simpl; rewrite ?length_app; cbn [length].
  all: rewrite ?template_eq in *; leb_props.
  all: try match goal with
       | |- context [?n <=? 279] => destruct (Nat.leb_spec n 279); try lia
       end.
  all: cbn [length]; rewrite ?length_app; cbn [length]; split; lia.
Qed.

Lemma loop_body_counted (E : env) : preserves_on_return counted (loop_body E).
Proof.
  apply preserves_on_return_bind.
  - apply preserves_weaken, next_doc_preserves; unfold counted; cbn;
      intros st ? H; [exact H|].
    now readers_simpl.
  - apply process_summary_counted.
Qed.

(** X24 - At the end of a run that reached its last line,
    [preprints_tweeted] is the number of calls of [tweet_image], whether or
    not they posted anything, [preprints_tweeted_FAILED] is the number of
    texts that [prepare_tweet] found too long, and the number of statuses
    handed to Twitter is at most [preprints_tweeted]. *)
Theorem counters_count_calls (E : env) (lines : list string) :
  fst (bot E (initial_state lines)) = Ret tt ->
  let st' := snd (bot E (initial_state lines)) in
  preprints_tweeted st' = length (published (calls st'))
  /\ preprints_tweeted_FAILED st' + length (fitting (calls st'))
     = length (prepared (calls st'))
  /\ length (posted (calls st')) <= preprints_tweeted st'.
Proof.
  cbv zeta. destruct (e_startup E) as [e|] eqn:Hstart.
  - rewrite (bot_startup_fails E e _ Hstart). discriminate.
  - rewrite (bot_run E _ Hstart).
    destruct (loop_entry_facts E (initial_state lines) Hstart)
      as (_ & _ & Hcalls & _ & _ & Htweeted & Hfailed).
    assert (Hcount := main_loop_preserves_on_return E _ (loop_body_counted E)
                        (e_getsizeof E) (loop_entry E (initial_state lines))).
    assert (Hsound := main_loop_preserves E _ (loop_body_sound E lines lines)
                        (e_getsizeof E) _ (run_sound_at_entry E lines Hstart)).
    destruct (main_loop E (e_getsizeof E) _) as [[[]|e] st']; [|discriminate].
    cbn in *. intros _.
    destruct Hcount as [Ht Hf].
    { unfold counted. rewrite Htweeted, Hfailed, Hcalls. cbn. split; reflexivity. }
    destruct Hsound as (_ & _ & _ & _ & _ & Hposted).
    split; [exact Ht|]. split; [exact Hf|]. lia.
Qed.

Lemma counters_count_calls_witness :
  let run := bot (world 1 ["3"] detail_3 404 PostOk) (initial_state ["1"; "2"]) in
  fst run = Ret tt
  /\ preprints_tweeted (snd run) = 1
  /\ length (published (calls (snd run))) = 1
  /\ length (posted (calls (snd run))) = 0.
Proof.
  cbv zeta.
  destruct (counters_count_calls (world 1 ["3"] detail_3 404 PostOk) ["1"; "2"] eq_refl)
    as (Ht & _ & _).
  split; [reflexivity|]. split; [reflexivity|]. split; [|reflexivity].
  rewrite <- Ht. reflexivity.
Defined.
